(** * Frame renderer of the N64 deployment: update, cull and draw

    Shallow embedding of [Deployment/n64/src/renderer.c].  The C code walks
    the scene's object array twice per frame: [renderer_update_objects]
    refreshes the model matrix and the cached world AABB of every object
    whose [transform.dirty] counter is not zero, [renderer_draw_scene]
    advances the frame-buffer slot index, runs the update and submits the
    display list of every object that survives the checks of its loop. *)

From Stdlib Require Import ZArith Bool Floats.SpecFloat.
From stdpp Require Import base list.

Local Open Scope Z_scope.

(** ** Single precision floats

    A C [float] is an IEEE 754 binary32 number: 24 bits of precision,
    exponents below 128, round to nearest even.  Every operation of the
    source rounds to that format on its own (no wider intermediate, no fused
    multiply-add), and [<] is the IEEE comparison, false on a NaN. *)
Module F32.

Definition prec : Z := 24.
Definition emax : Z := 128.

Definition float := spec_float.

Definition add : float -> float -> float := SFadd prec emax.
Definition sub : float -> float -> float := SFsub prec emax.
Definition mul : float -> float -> float := SFmul prec emax.
Definition ltb : float -> float -> bool := SFltb.

(** The literal of an integer constant ([0.0f], [1.0f], [2.0f], ...). *)
Definition of_Z (z : Z) : float :=
  match z with
  | Z0 => S754_zero false
  | Zpos p => binary_normalize prec emax (Zpos p) 0 false
  | Zneg p => binary_normalize prec emax (Zneg p) 0 true
  end.

Definition zero : float := of_Z 0.
Definition one : float := of_Z 1.
Definition two : float := of_Z 2.

Definition is_nan (x : float) : bool :=
  match x with S754_nan => true | _ => false end.

Definition is_finite (x : float) : bool :=
  match x with
  | S754_zero _ | S754_finite _ _ _ => true
  | S754_infinity _ | S754_nan => false
  end.

End F32.

Declare Scope f32_scope.
Delimit Scope f32_scope with f32.
Infix "+" := F32.add : f32_scope.
Infix "-" := F32.sub : f32_scope.
Infix "*" := F32.mul : f32_scope.
Infix "<?" := F32.ltb : f32_scope.

(** ** Vectors and quaternions of the T3D math library

    [T3DVec3] is [float v[3]], [T3DQuat] is [float v[4]]. *)
Record T3DVec3 := mkVec3 { v3x : F32.float; v3y : F32.float; v3z : F32.float }.
Record T3DQuat := mkQuat
  { qv0 : F32.float; qv1 : F32.float; qv2 : F32.float; qv3 : F32.float }.

(** [.v[i]] for the constant indices 0, 1, 2 the source uses. *)
Definition vget (a : T3DVec3) (i : nat) : F32.float :=
  match i with
  | O => v3x a
  | S O => v3y a
  | _ => v3z a
  end.

Definition vset (a : T3DVec3) (i : nat) (x : F32.float) : T3DVec3 :=
  match i with
  | O => mkVec3 x (v3y a) (v3z a)
  | S O => mkVec3 (v3x a) x (v3z a)
  | _ => mkVec3 (v3x a) (v3y a) x
  end.

(** [(T3DVec3){{0.0f, 0.0f, 0.0f}}] *)
Definition vec3_origin : T3DVec3 := mkVec3 F32.zero F32.zero F32.zero.

Definition vec3_of_Z (x y z : Z) : T3DVec3 :=
  mkVec3 (F32.of_Z x) (F32.of_Z y) (F32.of_Z z).

(** ** What the renderer takes from outside this file

    The T3D and libdragon types and functions the renderer calls.  Their
    code is not part of the repository, so they are an interface here. *)
Class T3D := {
  (** fixed-point 4x4 matrix, as the RSP consumes it *)
  T3DMat4FP : Type;
  (** the six planes of a viewport's view volume *)
  T3DFrustum : Type;
  (** a recorded, precompiled display list *)
  rspq_block_t : Type;
  (** [t3d_mat4fp_from_srt(out, scale, rot, loc)]: the value stored in [out] *)
  t3d_mat4fp_from_srt : T3DVec3 -> T3DQuat -> T3DVec3 -> T3DMat4FP;
  (** [t3d_frustum_vs_aabb(frustum, min, max)] *)
  t3d_frustum_vs_aabb : T3DFrustum -> T3DVec3 -> T3DVec3 -> bool
}.

(** The two names [renderer.c] takes from the engine headers ([engine.h],
    [utils.h]), which are not under [src/]: the number of frame buffers and
    the validator of a location/scale pair. *)
Class Engine := {
  FB_COUNT : Z;
  transform_is_safe : T3DVec3 -> T3DVec3 -> bool
}.

(** A colour, [uint8_t[4]]. *)
Definition color_t : Type := Z * Z * Z * Z.

(** A pointer to one slot of one object's [model_mat] array:
    [&scene->objects[i].model_mat[k]]. *)
Record mat_ptr := MatPtr { ptr_obj : nat; ptr_slot : Z }.

(** The calls the renderer makes into T3D and libdragon, in program order. *)
Inductive call `{T3D} : Type :=
| c_mat4fp_from_srt (out : mat_ptr) (scale : T3DVec3) (rot : T3DQuat) (loc : T3DVec3)
| c_display_get
| c_display_get_zbuf
| c_rdpq_attach
| c_frame_start
| c_viewport_attach
| c_screen_clear_color (c : color_t)
| c_screen_clear_depth
| c_state_set_drawflags
| c_light_set_ambient (c : color_t)
| c_light_set_count (n : nat)
| c_light_set_directional (i : nat) (c : color_t) (dir : T3DVec3)
| c_matrix_push_pos (n : Z)
| c_matrix_set (m : mat_ptr) (do_multiply : bool)
| c_rspq_block_run (dpl : rspq_block_t)
| c_matrix_pop (n : Z).

Section Renderer.
Context `{t3d : T3D} `{engine : Engine}.

(** *** The scene

    Modelled from the spec: the structs of [types.h], which is not under
    [src/].  Section 3 of the specification lists their fields and
    [renderer.c] reads and writes them under the names kept here.  [dirty] is
    the "non-negative integer counter" of the frames that still have to
    refresh the object, a natural number here; the object array and the
    matrix array of an object are lists, indexed as the C arrays are.  The
    counts [object_count] and [light_count] are unsigned and the loop
    counters have their types, so they are natural numbers that never
    wrap. *)
Record ArmTransform := mkTransform {
  loc : T3DVec3;
  rot : T3DQuat;
  scale : T3DVec3;
  dirty : N
}.

Record ArmObject := mkObject {
  transform : ArmTransform;
  bounds_min : T3DVec3;
  bounds_max : T3DVec3;
  cached_world_aabb_min : T3DVec3;
  cached_world_aabb_max : T3DVec3;
  model_mat : list T3DMat4FP;
  is_static : bool;
  visible : bool;
  is_removed : bool;
  (** [NULL] while the model's display list is not loaded *)
  dpl : option rspq_block_t
}.

Record ArmLight := mkLight { color : color_t; dir : T3DVec3 }.

Record ArmWorld := mkWorld { clear_color : color_t; ambient_color : color_t }.

Record ArmScene := mkScene {
  world : ArmWorld;
  objects : list ArmObject;
  object_count : nat;
  lights : list ArmLight;
  light_count : nat
}.

Record T3DViewport := mkViewport { viewFrustum : T3DFrustum }.

(** Field assignments through the [obj] pointer. *)
Definition set_loc (v : T3DVec3) (o : ArmObject) : ArmObject :=
  let t := transform o in
  mkObject (mkTransform v (rot t) (scale t) (dirty t))
    (bounds_min o) (bounds_max o) (cached_world_aabb_min o)
    (cached_world_aabb_max o) (model_mat o) (is_static o) (visible o)
    (is_removed o) (dpl o).

Definition set_dirty (d : N) (o : ArmObject) : ArmObject :=
  let t := transform o in
  mkObject (mkTransform (loc t) (rot t) (scale t) d)
    (bounds_min o) (bounds_max o) (cached_world_aabb_min o)
    (cached_world_aabb_max o) (model_mat o) (is_static o) (visible o)
    (is_removed o) (dpl o).

Definition set_visible (b : bool) (o : ArmObject) : ArmObject :=
  mkObject (transform o) (bounds_min o) (bounds_max o)
    (cached_world_aabb_min o) (cached_world_aabb_max o) (model_mat o)
    (is_static o) b (is_removed o) (dpl o).

Definition set_model_mat (ms : list T3DMat4FP) (o : ArmObject) : ArmObject :=
  mkObject (transform o) (bounds_min o) (bounds_max o)
    (cached_world_aabb_min o) (cached_world_aabb_max o) ms
    (is_static o) (visible o) (is_removed o) (dpl o).

Definition set_cached_world_aabb (mn mx : T3DVec3) (o : ArmObject) : ArmObject :=
  mkObject (transform o) (bounds_min o) (bounds_max o) mn mx (model_mat o)
    (is_static o) (visible o) (is_removed o) (dpl o).

Definition set_objects (os : list ArmObject) (s : ArmScene) : ArmScene :=
  mkScene (world s) os (object_count s) (lights s) (light_count s).

(** *** The state a frame runs in

    The file-level [static int frameIdx], the scene the [scene] pointer
    designates, and the calls made so far. *)
Record Renderer := mkRenderer {
  frameIdx : Z;
  scene : ArmScene;
  calls : list call
}.

(** [static int frameIdx = 0;] *)
Definition renderer_init (s : ArmScene) : Renderer := mkRenderer 0 s [].

Definition emit (cs : list call) (r : Renderer) : Renderer :=
  mkRenderer (frameIdx r) (scene r) (calls r ++ cs).

Definition set_frameIdx (f : Z) (r : Renderer) : Renderer :=
  mkRenderer f (scene r) (calls r).

Definition set_scene (s : ArmScene) (r : Renderer) : Renderer :=
  mkRenderer (frameIdx r) s (calls r).

(** [for (i = 0; i < n; i++) body(i)] *)
Definition for_range {S : Type} (n : nat) (body : nat -> S -> S) (s : S) : S :=
  foldl (fun s i => body i s) s (seq 0 n).

(** *** The world AABB of a rotated box (lines 54-84) *)

(** [float m[3][3]], row by row. *)
Definition quat_rotation (q : T3DQuat) : nat -> T3DVec3 :=
  let qx := qv0 q in
  let qy := qv1 q in
  let qz := qv2 q in
  let qw := qv3 q in
  let xx := (qx * qx)%f32 in let yy := (qy * qy)%f32 in let zz := (qz * qz)%f32 in
  let xy := (qx * qy)%f32 in let xz := (qx * qz)%f32 in let yz := (qy * qz)%f32 in
  let wx := (qw * qx)%f32 in let wy := (qw * qy)%f32 in let wz := (qw * qz)%f32 in
  let one := F32.one in
  let two := F32.two in
  fun i =>
    match i with
    | O => mkVec3 (one - two * (yy + zz)) (two * (xy - wz)) (two * (xz + wy))
    | S O => mkVec3 (two * (xy + wz)) (one - two * (xx + zz)) (two * (yz - wx))
    | _ => mkVec3 (two * (xz - wy)) (two * (yz + wx)) (one - two * (xx + yy))
    end%f32.

(** Body of the inner loop: one matrix element's contribution to axis [i]
    of the cached box. *)
Definition aabb_inner (m : nat -> T3DVec3) (i j : nat) (o : ArmObject) : ArmObject :=
  let a := (vget (m i) j * vget (bounds_min o) j)%f32 in
  let b := (vget (m i) j * vget (bounds_max o) j)%f32 in
  let mn := cached_world_aabb_min o in
  let mx := cached_world_aabb_max o in
  if (a <? b)%f32
  then set_cached_world_aabb (vset mn i (vget mn i + a)%f32)
                             (vset mx i (vget mx i + b)%f32) o
  else set_cached_world_aabb (vset mn i (vget mn i + b)%f32)
                             (vset mx i (vget mx i + a)%f32) o.

(** Body of the outer loop: start from the position, then accumulate. *)
Definition aabb_outer (m : nat -> T3DVec3) (i : nat) (o : ArmObject) : ArmObject :=
  let l := vget (loc (transform o)) i in
  let o := set_cached_world_aabb (vset (cached_world_aabb_min o) i l)
                                 (vset (cached_world_aabb_max o) i l) o in
  for_range 3 (aabb_inner m i) o.

Definition update_world_aabb (o : ArmObject) : ArmObject :=
  let m := quat_rotation (rot (transform o)) in
  for_range 3 (aabb_outer m) o.

(** *** [renderer_update_objects] *)

(** [obj->is_static ? 0 : frameIdx] *)
Definition mat_idx_of (f : Z) (o : ArmObject) : Z :=
  if is_static o then 0 else f.

(** Lines 40-44: an unsafe transform sends the object to the origin and
    hides it. *)
Definition sanitize (o : ArmObject) : ArmObject :=
  if negb (transform_is_safe (loc (transform o)) (scale (transform o)))
  then set_visible false (set_loc vec3_origin o)
  else o.

(** Lines 46-47: the matrix is composed into the slot [mat_idx]; an index
    outside the array is outside C's defined behaviour and writes nothing
    here. *)
Definition store_model_mat (mat_idx : Z) (o : ArmObject) : ArmObject :=
  let t := transform o in
  if mat_idx <? 0 then o
  else set_model_mat
         (<[Z.to_nat mat_idx := t3d_mat4fp_from_srt (scale t) (rot t) (loc t)]>
            (model_mat o)) o.

(** Lines 46-86: compose the matrix, refresh the cached box, count the
    frame down.  The new object and the library call made for it. *)
Definition recompute (f : Z) (i : nat) (obj : ArmObject) : ArmObject * list call :=
  let mat_idx := mat_idx_of f obj in
  let t := transform obj in
  let c := c_mat4fp_from_srt (MatPtr i mat_idx) (scale t) (rot t) (loc t) in
  let obj := store_model_mat mat_idx obj in
  let obj := update_world_aabb obj in
  let obj := set_dirty (N.pred (dirty (transform obj))) obj in
  (obj, [c]).

(** The loop body for the object at index [i] (lines 29-86). *)
Definition update_object (f : Z) (i : nat) (obj : ArmObject) : ArmObject * list call :=
  if is_removed obj then (obj, [])
  else if (dirty (transform obj) =? 0)%N then (obj, [])
  else recompute f i (sanitize obj).

(** One iteration on the renderer state: [obj = &scene->objects[i]].  An
    index past the end of the array is outside C's defined behaviour and
    does nothing here. *)
Definition update_step (i : nat) (r : Renderer) : Renderer :=
  match objects (scene r) !! i with
  | None => r
  | Some obj =>
      let '(obj', cs) := update_object (frameIdx r) i obj in
      emit cs (set_scene (set_objects (<[i := obj']> (objects (scene r))) (scene r)) r)
  end.

Definition renderer_update_objects (r : Renderer) : Renderer :=
  for_range (object_count (scene r)) update_step r.

(** *** [renderer_draw_scene] *)

(** Lines 107-110. *)
Definition light_step (i : nat) (r : Renderer) : Renderer :=
  match lights (scene r) !! i with
  | None => r
  | Some l => emit [c_light_set_directional i (color l) (dir l)] r
  end.

(** The body of the draw loop for the object at index [i] (lines 118-136):
    the calls it makes, none when one of the three tests skips the
    object. *)
Definition draw_object (frustum : T3DFrustum) (f : Z) (i : nat) (obj : ArmObject)
  : list call :=
  if negb (visible obj) then []
  else if negb (t3d_frustum_vs_aabb frustum (cached_world_aabb_min obj)
                                    (cached_world_aabb_max obj)) then []
  else match dpl obj with
       | None => []
       | Some block =>
           let mat_idx := mat_idx_of f obj in
           [c_matrix_set (MatPtr i mat_idx) true; c_rspq_block_run block]
       end.

(** One iteration of the draw loop; the state carries [visible_count]. *)
Definition draw_step (frustum : T3DFrustum) (i : nat) (st : Z * Renderer)
  : Z * Renderer :=
  let '(visible_count, r) := st in
  match objects (scene r) !! i with
  | None => st
  | Some obj =>
      match draw_object frustum (frameIdx r) i obj with
      | [] => st
      | cs => (visible_count + 1, emit cs r)
      end
  end.

(** The function up to the end of the draw loop, with [visible_count],
    which only the debug HUD reads.  The index moves first (line 91, C's [%]
    truncates like [Z.rem]), then the update pass runs with the new index. *)
Definition draw_scene_counted (viewport : T3DViewport) (r : Renderer) : Z * Renderer :=
  let r := set_frameIdx (Z.rem (frameIdx r + 1) FB_COUNT) r in
  let r := renderer_update_objects r in
  let w := world (scene r) in
  let r := emit [c_display_get; c_display_get_zbuf; c_rdpq_attach; c_frame_start;
                 c_viewport_attach;
                 c_screen_clear_color (clear_color w); c_screen_clear_depth;
                 c_state_set_drawflags;
                 c_light_set_ambient (ambient_color w);
                 c_light_set_count (light_count (scene r))] r in
  let r := for_range (light_count (scene r)) light_step r in
  let frustum := viewFrustum viewport in
  let visible_count := 0 in
  let r := emit [c_matrix_push_pos 1] r in
  let '(visible_count, r) :=
    for_range (object_count (scene r)) (draw_step frustum) (visible_count, r) in
  (visible_count, emit [c_matrix_pop 1] r).

(** [ARM_DEBUG_HUD] is not defined: the function ends after the loop. *)
Definition renderer_draw_scene (viewport : T3DViewport) (r : Renderer) : Renderer :=
  snd (draw_scene_counted viewport r).

End Renderer.

(** ** Observations on the call trace and on the state *)

Section Observations.
Context `{t3d : T3D} `{engine : Engine}.

(** A composition of the model matrix of object [i]. *)
Definition is_compose_for (i : nat) (c : call) : bool :=
  match c with
  | c_mat4fp_from_srt out _ _ _ => Nat.eqb (ptr_obj out) i
  | _ => false
  end.

(** How many times the trace recomputes object [i]. *)
Definition recomputations (i : nat) (cs : list call) : nat :=
  length (List.filter (is_compose_for i) cs).

(** The calls made between the state [r] and the later state [r']. *)
Definition calls_since (r r' : Renderer) : list call :=
  drop (length (calls r)) (calls r').

(** The calls one pass of the draw loop makes for the objects
    [0 .. n-1] of the list [os]. *)
Definition draw_calls (frustum : T3DFrustum) (f : Z) (os : list ArmObject) (n : nat)
  : list call :=
  flat_map (fun i => match os !! i with
                     | Some o => draw_object frustum f i o
                     | None => []
                     end) (seq 0 n).

(** The same for the update loop. *)
Definition update_calls (f : Z) (os : list ArmObject) (n : nat) : list call :=
  flat_map (fun i => match os !! i with
                     | Some o => snd (update_object f i o)
                     | None => []
                     end) (seq 0 n).

(** The calls of the light loop for the lights [0 .. n-1]. *)
Definition light_calls (ls : list ArmLight) (n : nat) : list call :=
  flat_map (fun i => match ls !! i with
                     | Some l => [c_light_set_directional i (color l) (dir l)]
                     | None => []
                     end) (seq 0 n).

(** The slot index a frame that starts in state [r] runs with. *)
Definition next_slot (r : Renderer) : Z := Z.rem (frameIdx r + 1) FB_COUNT.

(** The objects as the draw loop of that frame sees them. *)
Definition updated_objects (r : Renderer) : list ArmObject :=
  objects (scene (renderer_update_objects (set_frameIdx (next_slot r) r))).

(** Everything one frame adds to the trace. *)
Definition frame_calls (viewport : T3DViewport) (r : Renderer) : list call :=
  let s := scene r in
  update_calls (next_slot r) (objects s) (object_count s)
  ++ [c_display_get; c_display_get_zbuf; c_rdpq_attach; c_frame_start;
      c_viewport_attach;
      c_screen_clear_color (clear_color (world s)); c_screen_clear_depth;
      c_state_set_drawflags; c_light_set_ambient (ambient_color (world s));
      c_light_set_count (light_count s)]
  ++ light_calls (lights s) (light_count s)
  ++ [c_matrix_push_pos 1]
  ++ draw_calls (viewFrustum viewport) (next_slot r) (updated_objects r)
                (object_count s)
  ++ [c_matrix_pop 1].

(** The trace submits object [i] for drawing: one of its matrices is bound
    and a display list is run right after. *)
Definition submitted (i : nat) (cs : list call) : Prop :=
  exists k block pre post,
    cs = pre ++ c_matrix_set (MatPtr i k) true :: c_rspq_block_run block :: post.

(** The three tests of the draw loop. *)
Definition passes_draw_tests (frustum : T3DFrustum) (o : ArmObject) : bool :=
  visible o
  && t3d_frustum_vs_aabb frustum (cached_world_aabb_min o) (cached_world_aabb_max o)
  && bool_decide (is_Some (dpl o)).

(** [n] consecutive frames. *)
Definition draw_frames (viewport : T3DViewport) (n : nat) (r : Renderer) : Renderer :=
  Nat.iter n (renderer_draw_scene viewport) r.

(** The slot index each of [n] consecutive frames runs with. *)
Definition slot_history (viewport : T3DViewport) (n : nat) (r : Renderer) : list Z :=
  map (fun j => frameIdx (draw_frames viewport (S j) r)) (seq 0 n).

(** [n] consecutive update passes. *)
Definition update_passes (n : nat) (r : Renderer) : Renderer :=
  Nat.iter n renderer_update_objects r.

(** The slot of its object's array a pointer designates exists. *)
Definition slot_exists (k : Z) (o : ArmObject) : Prop :=
  0 <= k /\ (Z.to_nat k < length (model_mat o))%nat.

(** The matrix array after [store_model_mat k]. *)
Definition composed_mats (k : Z) (o : ArmObject) : list T3DMat4FP :=
  if k <? 0 then model_mat o
  else <[Z.to_nat k :=
           t3d_mat4fp_from_srt (scale (transform o)) (rot (transform o))
                               (loc (transform o))]> (model_mat o).

(** *** The box of [update_world_aabb] in closed form *)

Definition extent_lo (x bmin bmax : F32.float) : F32.float :=
  let a := (x * bmin)%f32 in
  let b := (x * bmax)%f32 in
  if (a <? b)%f32 then a else b.

Definition extent_hi (x bmin bmax : F32.float) : F32.float :=
  let a := (x * bmin)%f32 in
  let b := (x * bmax)%f32 in
  if (a <? b)%f32 then b else a.

Definition axis_sum (ext : F32.float -> F32.float -> F32.float -> F32.float)
    (row l bmin bmax : T3DVec3) (i : nat) : F32.float :=
  (((vget l i + ext (v3x row) (v3x bmin) (v3x bmax))
    + ext (v3y row) (v3y bmin) (v3y bmax))
    + ext (v3z row) (v3z bmin) (v3z bmax))%f32.

Definition world_aabb_min (q : T3DQuat) (l bmin bmax : T3DVec3) : T3DVec3 :=
  let m := quat_rotation q in
  mkVec3 (axis_sum extent_lo (m 0%nat) l bmin bmax 0)
         (axis_sum extent_lo (m 1%nat) l bmin bmax 1)
         (axis_sum extent_lo (m 2%nat) l bmin bmax 2).

Definition world_aabb_max (q : T3DQuat) (l bmin bmax : T3DVec3) : T3DVec3 :=
  let m := quat_rotation q in
  mkVec3 (axis_sum extent_hi (m 0%nat) l bmin bmax 0)
         (axis_sum extent_hi (m 1%nat) l bmin bmax 1)
         (axis_sum extent_hi (m 2%nat) l bmin bmax 2).

End Observations.

(** ** The validator, from its contract *)

(** Modelled from the spec: one coordinate as [transform_is_safe] of
    [utils.h], which is not under [src/], judges it.  Section 4.1 calls a
    vector safe when it is "finite (no NaN/Inf) and within a bounded,
    renderer-defined numeric range".  The range is the renderer's choice and
    stays a parameter, [in_range]. *)
Definition component_is_safe (in_range : F32.float -> bool) (x : F32.float) : bool :=
  F32.is_finite x && in_range x.

(** Modelled from the spec: a vector is safe when its three coordinates
    are. *)
Definition vec3_is_safe (in_range : F32.float -> bool) (v : T3DVec3) : bool :=
  component_is_safe in_range (v3x v) && component_is_safe in_range (v3y v)
  && component_is_safe in_range (v3z v).

(** Modelled from the spec: [transform_is_safe] of [utils.h], which is not
    under [src/].  Section 4.1: "given a location vector and a scale vector,
    returns whether both are safe". *)
Definition spec_transform_is_safe (in_range : F32.float -> bool)
    (loc scale : T3DVec3) : bool :=
  vec3_is_safe in_range loc && vec3_is_safe in_range scale.

(** An engine with [fb_count] frame buffers and the validator above. *)
Definition spec_engine (fb_count : Z) (in_range : F32.float -> bool) : Engine :=
  {| FB_COUNT := fb_count; transform_is_safe := spec_transform_is_safe in_range |}.

(** A location has a NaN on some axis. *)
Definition has_nan (v : T3DVec3) : bool :=
  F32.is_nan (v3x v) || F32.is_nan (v3y v) || F32.is_nan (v3z v).

(** ** A concrete scene to run the renderer on *)
Module Sample.

(** A stand-in for the T3D library: a matrix is the triple it was composed
    from, a view volume is an axis-aligned box and a box is inside it when
    the two overlap on every axis. *)
Definition overlap (lo hi mn mx : F32.float) : bool :=
  SFleb mn hi && SFleb lo mx.

Definition box_vs_aabb (fr : T3DVec3 * T3DVec3) (mn mx : T3DVec3) : bool :=
  overlap (v3x (fst fr)) (v3x (snd fr)) (v3x mn) (v3x mx)
  && overlap (v3y (fst fr)) (v3y (snd fr)) (v3y mn) (v3y mx)
  && overlap (v3z (fst fr)) (v3z (snd fr)) (v3z mn) (v3z mx).

Definition t3d : T3D :=
  {| T3DMat4FP := T3DVec3 * T3DQuat * T3DVec3;
     T3DFrustum := T3DVec3 * T3DVec3;
     rspq_block_t := nat;
     t3d_mat4fp_from_srt := fun s q l => (s, q, l);
     t3d_frustum_vs_aabb := box_vs_aabb |}.

#[local] Existing Instance t3d.

(** Three frame buffers; coordinates up to 32000 in absolute value. *)
Definition in_range (x : F32.float) : bool := SFleb (SFabs x) (F32.of_Z 32000).

Definition engine : Engine := spec_engine 3 in_range.

#[local] Existing Instance engine.

Definition identity_quat : T3DQuat :=
  mkQuat F32.zero F32.zero F32.zero F32.one.

Definition blank_mat : T3DMat4FP := (vec3_origin, identity_quat, vec3_origin).

(** A unit cube at (2,3,4), just moved: three frames to refresh. *)
Definition cube : ArmObject :=
  mkObject (mkTransform (vec3_of_Z 2 3 4) identity_quat (vec3_of_Z 1 1 1) 3)
           (vec3_of_Z (-1) (-1) (-1)) (vec3_of_Z 1 1 1)
           vec3_origin vec3_origin
           [blank_mat; blank_mat; blank_mat]
           false true false (Some 7%nat).

(** The cube with a NaN in its location. *)
Definition nan_cube : ArmObject :=
  set_loc (mkVec3 (F32.of_Z 2) S754_nan (F32.of_Z 4)) cube.

(** The cube with a NaN in its scale and a good location. *)
Definition nan_scale_cube : ArmObject :=
  mkObject (mkTransform (vec3_of_Z 2 3 4) identity_quat
                        (mkVec3 S754_nan F32.one F32.one) 3)
           (vec3_of_Z (-1) (-1) (-1)) (vec3_of_Z 1 1 1)
           vec3_origin vec3_origin
           [blank_mat; blank_mat; blank_mat]
           false true false (Some 7%nat).

(** The cube, hidden, with the same three frames to refresh. *)
Definition hidden_cube : ArmObject := set_visible false cube.

(** The cube at rest: nothing to refresh, box up to date. *)
Definition clean_cube : ArmObject :=
  set_cached_world_aabb (vec3_of_Z 1 2 3) (vec3_of_Z 3 4 5) (set_dirty 0 cube).

(** The cube at rest after a logical deletion that left [visible] set. *)
Definition removed_cube : ArmObject :=
  mkObject (transform clean_cube) (bounds_min clean_cube) (bounds_max clean_cube)
           (cached_world_aabb_min clean_cube) (cached_world_aabb_max clean_cube)
           (model_mat clean_cube) false true true (Some 7%nat).

(** The same cube as a static object. *)
Definition static_cube : ArmObject :=
  mkObject (transform cube) (bounds_min cube) (bounds_max cube)
           (cached_world_aabb_min cube) (cached_world_aabb_max cube)
           (model_mat cube) true true false (Some 7%nat).

(** The static cube as the first frame, which runs with slot 1, leaves it. *)
Definition static_cube_after_frame : ArmObject := (update_object 1 0 static_cube).1.

Definition the_world : ArmWorld := mkWorld (0, 0, 0, 255) (80, 80, 80, 255).

Definition scene_of (o : ArmObject) : ArmScene :=
  mkScene the_world [o] 1 [mkLight (255, 255, 255, 255) (vec3_of_Z 0 1 0)] 1.

(** A renderer about to draw its first frame. *)
Definition start (o : ArmObject) : Renderer := renderer_init (scene_of o).

(** A view volume around the origin. *)
Definition viewport : T3DViewport :=
  mkViewport (vec3_of_Z (-100) (-100) (-100), vec3_of_Z 100 100 100).

End Sample.

(** ** Further observations: counts, slots and the frames of an object *)
Section FrameObservations.
Context `{t3d : T3D} `{engine : Engine}.

(** A bind of one of the matrices of object [i]. *)
Definition is_bind_for (i : nat) (c : call) : bool :=
  match c with
  | c_matrix_set m _ => Nat.eqb (ptr_obj m) i
  | _ => false
  end.

(** How many times the trace binds a matrix of object [i]. *)
Definition binds (i : nat) (cs : list call) : nat :=
  length (List.filter (is_bind_for i) cs).

Definition is_block_run (c : call) : bool :=
  match c with
  | c_rspq_block_run _ => true
  | _ => false
  end.

(** How many display lists the trace runs. *)
Definition block_runs (cs : list call) : nat :=
  length (List.filter is_block_run cs).

(** The object at index [i] of [os] passes the three tests of the draw
    loop. *)
Definition passes_at (frustum : T3DFrustum) (os : list ArmObject) (i : nat) : bool :=
  match os !! i with
  | Some o => passes_draw_tests frustum o
  | None => false
  end.

(** How many of the objects [0 .. n-1] pass them. *)
Definition passing (frustum : T3DFrustum) (os : list ArmObject) (n : nat) : nat :=
  length (List.filter (passes_at frustum os) (seq 0 n)).

(** The update loop has nothing to do for the object. *)
Definition quiet (o : ArmObject) : bool :=
  is_removed o || (dirty (transform o) =? 0)%N.

(** The object has one matrix per frame buffer. *)
Definition full_slots (o : ArmObject) : Prop :=
  length (model_mat o) = Z.to_nat FB_COUNT.

(** The slot the [j]-th frame after a state with index [f0] runs with. *)
Definition slot_of_frame (f0 : Z) (j : nat) : nat :=
  Z.to_nat ((f0 + Z.of_nat j) mod FB_COUNT).

(** The matrix of the object's present transform. *)
Definition composed (o : ArmObject) : T3DMat4FP :=
  t3d_mat4fp_from_srt (scale (transform o)) (rot (transform o)) (loc (transform o)).

(** The prologue of a frame: the calls between the update pass and the light
    loop. *)
Definition frame_prologue (s : ArmScene) : list call :=
  [c_display_get; c_display_get_zbuf; c_rdpq_attach; c_frame_start;
   c_viewport_attach;
   c_screen_clear_color (clear_color (world s)); c_screen_clear_depth;
   c_state_set_drawflags; c_light_set_ambient (ambient_color (world s));
   c_light_set_count (light_count s)].

End FrameObservations.

(** ** More scenes *)
Module Stage.
Import Sample.
#[local] Existing Instance t3d.
#[local] Existing Instance engine.

(** A moving cube and a static one behind it in the array. *)
Definition pair_scene : ArmScene :=
  mkScene the_world [cube; static_cube] 2
          [mkLight (255, 255, 255, 255) (vec3_of_Z 0 1 0)] 1.

Definition pair_start : Renderer := renderer_init pair_scene.

(** The two cubes as the first frame leaves them. *)
Definition cube_after_frame : ArmObject := (update_object 1 0 cube).1.
Definition static_after_frame : ArmObject := (update_object 1 1 static_cube).1.

(** A scene that counts no object, with one in the array all the same. *)
Definition empty_scene : ArmScene :=
  mkScene the_world [cube] 0 [mkLight (255, 255, 255, 255) (vec3_of_Z 0 1 0)] 1.

Definition empty_start : Renderer := renderer_init empty_scene.

(** A removed cube that is still dirty. *)
Definition removed_dirty_cube : ArmObject :=
  mkObject (transform cube) (bounds_min cube) (bounds_max cube)
           (cached_world_aabb_min cube) (cached_world_aabb_max cube)
           (model_mat cube) false true true (Some 7%nat).

(** A cube that needs one refresh only. *)
Definition once_dirty_cube : ArmObject := set_dirty 1 cube.

(** A cube without its display list. *)
Definition unloaded_cube : ArmObject :=
  mkObject (transform cube) (bounds_min cube) (bounds_max cube)
           (cached_world_aabb_min cube) (cached_world_aabb_max cube)
           (model_mat cube) false true false None.

End Stage.

Section UpdateObject.
Context `{t3d : T3D} `{engine : Engine}.
Implicit Types (o obj : ArmObject) (f k : Z) (i j : nat) (r : Renderer).

Lemma vget_vset a i x : vget (vset a i x) i = x.
Proof. by destruct i as [|[|?]]. Qed.

Lemma vset_vset a i x y : vset (vset a i x) i y = vset a i y.
Proof. by destruct i as [|[|?]]. Qed.

Lemma aabb_inner_mk m i j t bmn bmx mn mx ms st vis rm dl :
  aabb_inner m i j (mkObject t bmn bmx mn mx ms st vis rm dl) =
  mkObject t bmn bmx
    (vset mn i (vget mn i + extent_lo (vget (m i) j) (vget bmn j) (vget bmx j))%f32)
    (vset mx i (vget mx i + extent_hi (vget (m i) j) (vget bmn j) (vget bmx j))%f32)
    ms st vis rm dl.
Proof.
  unfold aabb_inner, extent_lo, extent_hi; cbv zeta.
  cbn [bounds_min bounds_max cached_world_aabb_min cached_world_aabb_max].
  by destruct (F32.ltb _ _).
Qed.

Lemma aabb_outer_mk m i t bmn bmx mn mx ms st vis rm dl :
  aabb_outer m i (mkObject t bmn bmx mn mx ms st vis rm dl) =
  mkObject t bmn bmx
    (vset mn i (axis_sum extent_lo (m i) (loc t) bmn bmx i))
    (vset mx i (axis_sum extent_hi (m i) (loc t) bmn bmx i))
    ms st vis rm dl.
Proof.
  unfold aabb_outer, set_cached_world_aabb.
  cbn [transform bounds_min bounds_max cached_world_aabb_min
       cached_world_aabb_max model_mat is_static visible is_removed dpl].
  unfold for_range; cbn [seq foldl].
  rewrite !aabb_inner_mk, !vget_vset, !vset_vset.
  reflexivity.
Qed.

(** The nine iterations of lines 69-83 in one expression. *)
Lemma update_world_aabb_eq o :
  update_world_aabb o =
  set_cached_world_aabb
    (world_aabb_min (rot (transform o)) (loc (transform o)) (bounds_min o) (bounds_max o))
    (world_aabb_max (rot (transform o)) (loc (transform o)) (bounds_min o) (bounds_max o))
    o.
Proof.
  unfold update_world_aabb, world_aabb_min, world_aabb_max.
  generalize (quat_rotation (rot (transform o))) as m; intros m.
  destruct o as [t bmn bmx [] [] ms st vis rm dl].
  unfold for_range; cbn [seq foldl].
  rewrite !aabb_outer_mk.
  reflexivity.
Qed.

(** *** The loop body, case by case *)

Lemma update_object_removed f i o :
  is_removed o = true -> update_object f i o = (o, []).
Proof. unfold update_object; by intros ->. Qed.

Lemma update_object_clean f i o :
  dirty (transform o) = 0%N -> update_object f i o = (o, []).
Proof. unfold update_object; intros ->; by destruct (is_removed o). Qed.

Lemma update_object_dirty f i o :
  is_removed o = false -> dirty (transform o) ≠ 0%N ->
  update_object f i o = recompute f i (sanitize o).
Proof.
  unfold update_object; intros -> Hd.
  by destruct (N.eqb_spec (dirty (transform o)) 0).
Qed.

Lemma sanitize_safe o :
  transform_is_safe (loc (transform o)) (scale (transform o)) = true ->
  sanitize o = o.
Proof. unfold sanitize; by intros ->. Qed.

Lemma sanitize_unsafe o :
  transform_is_safe (loc (transform o)) (scale (transform o)) = false ->
  sanitize o = set_visible false (set_loc vec3_origin o).
Proof. unfold sanitize; by intros ->. Qed.

(** What the validation step leaves alone. *)
Lemma sanitize_frame o :
  let o' := sanitize o in
  rot (transform o') = rot (transform o)
  /\ scale (transform o') = scale (transform o)
  /\ dirty (transform o') = dirty (transform o)
  /\ bounds_min o' = bounds_min o /\ bounds_max o' = bounds_max o
  /\ model_mat o' = model_mat o /\ is_static o' = is_static o
  /\ is_removed o' = is_removed o /\ dpl o' = dpl o.
Proof. unfold sanitize; destruct (negb _); by repeat split. Qed.

(** The three steps of [recompute], field by field. *)
Lemma recompute_eq f i o :
  recompute f i o =
  (mkObject
     (mkTransform (loc (transform o)) (rot (transform o)) (scale (transform o))
                  (N.pred (dirty (transform o))))
     (bounds_min o) (bounds_max o)
     (world_aabb_min (rot (transform o)) (loc (transform o))
                     (bounds_min o) (bounds_max o))
     (world_aabb_max (rot (transform o)) (loc (transform o))
                     (bounds_min o) (bounds_max o))
     (composed_mats (mat_idx_of f o) o)
     (is_static o) (visible o) (is_removed o) (dpl o),
   [c_mat4fp_from_srt (MatPtr i (mat_idx_of f o)) (scale (transform o))
                      (rot (transform o)) (loc (transform o))]).
Proof.
  unfold recompute; cbv zeta.
  rewrite update_world_aabb_eq.
  unfold store_model_mat, composed_mats.
  destruct (mat_idx_of f o <? 0); by destruct o as [[] ?].
Qed.

Lemma composed_mats_lookup k o :
  slot_exists k o ->
  composed_mats k o !! Z.to_nat k =
  Some (t3d_mat4fp_from_srt (scale (transform o)) (rot (transform o))
                            (loc (transform o))).
Proof.
  intros [Hk Hlen]. unfold composed_mats.
  destruct (Z.ltb_spec k 0); [lia|].
  by apply list_lookup_insert_eq.
Qed.

Lemma composed_mats_other k o j :
  j ≠ Z.to_nat k -> composed_mats k o !! j = model_mat o !! j.
Proof.
  intros Hj. unfold composed_mats.
  destruct (k <? 0); [done|]. by apply list_lookup_insert_ne.
Qed.

Lemma mat_idx_of_sanitize f o : mat_idx_of f (sanitize o) = mat_idx_of f o.
Proof. unfold mat_idx_of. by rewrite (proj1 (proj2 (proj2 (proj2 (proj2 (proj2 (proj2 (sanitize_frame o)))))))). Qed.

(** Whatever the case, the body keeps the flags and the asset of the
    object and never raises the counter. *)
Lemma update_object_frame f i o :
  let o' := (update_object f i o).1 in
  is_removed o' = is_removed o /\ is_static o' = is_static o
  /\ dpl o' = dpl o /\ bounds_min o' = bounds_min o
  /\ bounds_max o' = bounds_max o
  /\ rot (transform o') = rot (transform o)
  /\ scale (transform o') = scale (transform o)
  /\ length (model_mat o') = length (model_mat o).
Proof.
  unfold update_object.
  destruct (is_removed o) eqn:Hr; [by repeat split|].
  destruct (N.eqb _ _); [by repeat split|].
  rewrite recompute_eq. cbn [fst transform is_removed is_static dpl bounds_min
    bounds_max rot scale model_mat].
  destruct (sanitize_frame o) as (-> & -> & _ & -> & -> & Hm & -> & -> & ->).
  repeat split; try done.
  unfold composed_mats. rewrite <- Hm.
  destruct (_ <? 0); [done|]. by rewrite length_insert.
Qed.

Lemma update_object_dirty_pred f i o :
  is_removed o = false ->
  dirty (transform (update_object f i o).1) = N.pred (dirty (transform o)).
Proof.
  intros Hr. destruct (N.eq_dec (dirty (transform o)) 0%N) as [Hd|Hd].
  - rewrite update_object_clean by done. by rewrite Hd.
  - rewrite update_object_dirty, recompute_eq by done.
    cbn [fst transform dirty].
    by destruct (sanitize_frame o) as (_ & _ & -> & _).
Qed.

Lemma update_object_calls f i o :
  (update_object f i o).2 =
  if is_removed o then []
  else if (dirty (transform o) =? 0)%N then []
  else [c_mat4fp_from_srt (MatPtr i (mat_idx_of f o)) (scale (transform o))
          (rot (transform o)) (loc (transform (sanitize o)))].
Proof.
  unfold update_object.
  destruct (is_removed o); [done|]. destruct (N.eqb _ _); [done|].
  rewrite recompute_eq. cbn [snd].
  rewrite mat_idx_of_sanitize.
  by destruct (sanitize_frame o) as (-> & -> & _).
Qed.

End UpdateObject.

(** ** The update loop as a whole *)
Section UpdateLoop.
Context `{t3d : T3D} `{engine : Engine}.
Implicit Types (o obj : ArmObject) (f k : Z) (i j n : nat) (r : Renderer).

Lemma for_range_S {S : Type} n (body : nat -> S -> S) (s : S) :
  for_range (Datatypes.S n) body s = body n (for_range n body s).
Proof. unfold for_range. by rewrite seq_S, foldl_snoc. Qed.

Lemma update_calls_S f (os : list ArmObject) n :
  update_calls f os (S n) =
  update_calls f os n ++
    match os !! n with Some o => (update_object f n o).2 | None => [] end.
Proof.
  unfold update_calls. rewrite seq_S, flat_map_app. cbn [flat_map].
  by rewrite app_nil_r.
Qed.

(** After the iterations [0 .. n-1]: the objects below [n] went through
    the loop body, the others are as they were, and nothing else in the
    state moved. *)
Lemma update_loop_spec n r :
  let r' := for_range n update_step r in
  frameIdx r' = frameIdx r
  /\ scene r' = set_objects (objects (scene r')) (scene r)
  /\ length (objects (scene r')) = length (objects (scene r))
  /\ (forall j, objects (scene r') !! j =
                if decide (j < n)%nat
                then (fun o => (update_object (frameIdx r) j o).1) <$> objects (scene r) !! j
                else objects (scene r) !! j)
  /\ calls r' = calls r ++ update_calls (frameIdx r) (objects (scene r)) n.
Proof.
  induction n as [|n IH]; cbv zeta.
  - unfold for_range; cbn [seq foldl]. repeat split.
    + by destruct r as [? [] ?].
    + by rewrite app_nil_r.
  - rewrite for_range_S, update_calls_S.
    destruct IH as (Hf & Hs & Hl & Ho & Hc).
    set (rn := for_range n update_step r) in *.
    unfold update_step. rewrite (Ho n).
    destruct (decide (n < n)%nat) as [?|_]; [lia|].
    destruct (objects (scene r) !! n) as [o|] eqn:Hn.
    + rewrite Hf. destruct (update_object (frameIdx r) n o) as [o' cs] eqn:Hu.
      cbn [emit set_scene set_objects frameIdx scene calls objects world
           object_count lights light_count snd].
      repeat split.
      * done.
      * rewrite Hs. reflexivity.
      * by rewrite length_insert.
      * intros j. destruct (decide (j = n)) as [->|Hj].
        -- rewrite list_lookup_insert_eq
             by (rewrite Hl; by apply lookup_lt_Some in Hn).
           destruct (decide (n < S n)%nat); [|lia].
           by rewrite Hn; cbn; rewrite Hu.
        -- rewrite list_lookup_insert_ne by done. rewrite Ho.
           destruct (decide (j < n)%nat), (decide (j < S n)%nat); done || lia.
      * by rewrite Hc, app_assoc.
    + repeat split; try done.
      * intros j. rewrite Ho.
        destruct (decide (j < n)%nat), (decide (j < S n)%nat); try done; try lia.
        assert (j = n) as -> by lia. by rewrite Hn.
      * by rewrite Hc, app_nil_r.
Qed.

Lemma update_objects_frameIdx r :
  frameIdx (renderer_update_objects r) = frameIdx r.
Proof. apply update_loop_spec. Qed.

Lemma update_objects_scene r :
  scene (renderer_update_objects r) =
  set_objects (objects (scene (renderer_update_objects r))) (scene r).
Proof. apply update_loop_spec. Qed.

Lemma update_objects_count r :
  object_count (scene (renderer_update_objects r)) = object_count (scene r).
Proof. by rewrite update_objects_scene. Qed.

Lemma update_objects_length r :
  length (objects (scene (renderer_update_objects r))) = length (objects (scene r)).
Proof. apply update_loop_spec. Qed.

(** The object at a live index is replaced by the loop body's result. *)
Lemma update_objects_lookup r i o :
  objects (scene r) !! i = Some o -> (i < object_count (scene r))%nat ->
  objects (scene (renderer_update_objects r)) !! i =
  Some (update_object (frameIdx r) i o).1.
Proof.
  intros Ho Hi. unfold renderer_update_objects.
  destruct (update_loop_spec (object_count (scene r)) r) as (_ & _ & _ & H & _).
  rewrite H, Ho. by destruct (decide _).
Qed.

Lemma update_objects_calls r :
  calls (renderer_update_objects r) =
  calls r ++ update_calls (frameIdx r) (objects (scene r)) (object_count (scene r)).
Proof. apply update_loop_spec. Qed.

(** *** Counting recomputations *)

Lemma recomputations_app i (cs cs' : list call) :
  recomputations i (cs ++ cs') = (recomputations i cs + recomputations i cs')%nat.
Proof. unfold recomputations. by rewrite List.filter_app, length_app. Qed.

Lemma recomputations_body f i j o :
  recomputations i (update_object f j o).2 =
  if decide (i = j)
  then (if is_removed o then 0 else if (dirty (transform o) =? 0)%N then 0 else 1)%nat
  else 0%nat.
Proof.
  rewrite update_object_calls.
  destruct (is_removed o); [by destruct (decide _)|].
  destruct (N.eqb _ _); [by destruct (decide _)|].
  unfold recomputations; cbn.
  destruct (decide (i = j)) as [->|Hne].
  - by rewrite Nat.eqb_refl.
  - destruct (Nat.eqb_spec j i); [congruence|done].
Qed.

Lemma recomputations_update_calls f (os : list ArmObject) n i o :
  os !! i = Some o ->
  recomputations i (update_calls f os n) =
  if decide (i < n)%nat then recomputations i (update_object f i o).2 else 0%nat.
Proof.
  intros Ho. induction n as [|n IH].
  - destruct (decide _); [lia|done].
  - rewrite update_calls_S, recomputations_app, IH.
    destruct (decide (i = n)) as [->|Hne].
    + rewrite Ho. destruct (decide (n < n)%nat); [lia|].
      by destruct (decide (n < S n)%nat); [|lia].
    + assert (recomputations i
                match os !! n with
                | Some o0 => (update_object f n o0).2
                | None => []
                end = 0%nat) as ->.
      { destruct (os !! n); [|done]. rewrite recomputations_body.
        by destruct (decide (i = n)). }
      destruct (decide (i < n)%nat), (decide (i < S n)%nat); lia.
Qed.

(** One pass recomputes a live object once when it is dirty and not
    removed, and never otherwise. *)
Lemma update_objects_recomputations r i o :
  objects (scene r) !! i = Some o -> (i < object_count (scene r))%nat ->
  recomputations i (calls (renderer_update_objects r)) =
  (recomputations i (calls r)
   + if is_removed o then 0 else if (dirty (transform o) =? 0)%N then 0 else 1)%nat.
Proof.
  intros Ho Hi.
  rewrite update_objects_calls, recomputations_app.
  rewrite (recomputations_update_calls _ _ _ _ _ Ho), recomputations_body.
  destruct (decide (i < _)%nat); [|lia]. by destruct (decide (i = i)).
Qed.

(** A pass leaves an object with nothing to refresh as it is and makes no
    call for it. *)
Lemma update_objects_clean r i o :
  objects (scene r) !! i = Some o ->
  dirty (transform o) = 0%N ->
  objects (scene (renderer_update_objects r)) !! i = Some o
  /\ recomputations i (calls (renderer_update_objects r)) = recomputations i (calls r).
Proof.
  intros Ho Hd. split.
  - unfold renderer_update_objects.
    destruct (update_loop_spec (object_count (scene r)) r) as (_ & _ & _ & H & _).
    rewrite H, Ho. destruct (decide _); [|done].
    cbn. by rewrite update_object_clean.
  - rewrite update_objects_calls, recomputations_app.
    rewrite (recomputations_update_calls _ _ _ _ _ Ho), recomputations_body.
    rewrite Hd. destruct (decide (i < _)%nat); [|lia].
    destruct (decide (i = i)), (is_removed o); cbn; lia.
Qed.

(** *** Where the calls of a pass come from *)

Lemma update_calls_elem f (os : list ArmObject) n (c : call) :
  c ∈ update_calls f os n <->
  exists j o, (j < n)%nat /\ os !! j = Some o /\ c ∈ (update_object f j o).2.
Proof.
  unfold update_calls. rewrite list_elem_of_In, in_flat_map. split.
  - intros (j & Hj & Hc). apply in_seq in Hj.
    destruct (os !! j) as [o|] eqn:Ho; [|done].
    exists j, o. rewrite list_elem_of_In. repeat split; done || lia.
  - intros (j & o & Hj & Ho & Hc). exists j. split; [apply in_seq; lia|].
    rewrite Ho. by apply list_elem_of_In.
Qed.

Lemma calls_since_update r :
  calls_since r (renderer_update_objects r) =
  update_calls (frameIdx r) (objects (scene r)) (object_count (scene r)).
Proof. unfold calls_since. by rewrite update_objects_calls, drop_app_length. Qed.

(** The composition call of a dirty, live object is in the pass's trace. *)
Lemma update_objects_compose r i o :
  objects (scene r) !! i = Some o -> (i < object_count (scene r))%nat ->
  is_removed o = false -> dirty (transform o) ≠ 0%N ->
  c_mat4fp_from_srt (MatPtr i (mat_idx_of (frameIdx r) o)) (scale (transform o))
      (rot (transform o)) (loc (transform (sanitize o)))
    ∈ calls_since r (renderer_update_objects r).
Proof.
  intros Ho Hi Hr Hd. rewrite calls_since_update, update_calls_elem.
  exists i, o. repeat split; try done.
  rewrite update_object_calls, Hr.
  destruct (N.eqb_spec (dirty (transform o)) 0); [done|]. apply list_elem_of_here.
Qed.

End UpdateLoop.

(** ** The draw loop and the frame as a whole *)
Section DrawLoop.
Context `{t3d : T3D} `{engine : Engine}.
Implicit Types (o obj : ArmObject) (f k : Z) (i j n : nat) (r : Renderer).
Implicit Types (frustum : T3DFrustum) (vp : T3DViewport).

Lemma light_calls_S (ls : list ArmLight) n :
  light_calls ls (S n) =
  light_calls ls n ++
    match ls !! n with
    | Some l => [c_light_set_directional n (color l) (dir l)]
    | None => []
    end.
Proof.
  unfold light_calls. rewrite seq_S, flat_map_app. cbn [flat_map].
  by rewrite app_nil_r.
Qed.

Lemma light_loop_spec n r :
  for_range n light_step r = emit (light_calls (lights (scene r)) n) r.
Proof.
  induction n as [|n IH].
  - unfold for_range, emit; cbn. rewrite app_nil_r. by destruct r.
  - rewrite for_range_S, IH, light_calls_S. unfold light_step, emit; cbn.
    destruct (lights (scene r) !! n); by rewrite ?app_nil_r, ?app_assoc.
Qed.

Lemma draw_calls_S frustum f (os : list ArmObject) n :
  draw_calls frustum f os (S n) =
  draw_calls frustum f os n ++
    match os !! n with Some o => draw_object frustum f n o | None => [] end.
Proof.
  unfold draw_calls. rewrite seq_S, flat_map_app. cbn [flat_map].
  by rewrite app_nil_r.
Qed.

(** The draw loop reads the scene and writes the trace only. *)
Lemma draw_loop_spec frustum n vc r :
  (for_range n (draw_step frustum) (vc, r)).2 =
  emit (draw_calls frustum (frameIdx r) (objects (scene r)) n) r.
Proof.
  induction n as [|n IH].
  - unfold for_range, emit; cbn. rewrite app_nil_r. by destruct r.
  - rewrite for_range_S, draw_calls_S.
    destruct (for_range n (draw_step frustum) (vc, r)) as [vc' r'].
    cbn [snd] in IH. subst r'. unfold draw_step.
    cbn [emit scene frameIdx].
    destruct (objects (scene r) !! n) as [o|]; cbn [snd].
    + destruct (draw_object frustum (frameIdx r) n o); cbn [snd].
      * by rewrite app_nil_r.
      * unfold emit; cbn. by rewrite app_assoc.
    + by rewrite app_nil_r.
Qed.

Lemma draw_scene_frameIdx vp r :
  frameIdx (renderer_draw_scene vp r) = next_slot r.
Proof.
  unfold renderer_draw_scene, draw_scene_counted; cbv zeta.
  rewrite light_loop_spec.
  match goal with
  | |- context [for_range ?n (draw_step ?fr) (?vc, ?r0)] =>
      pose proof (draw_loop_spec fr n vc r0) as H;
      destruct (for_range n (draw_step fr) (vc, r0)) as [vc' r']
  end.
  cbn [snd] in *. subst r'. cbn [emit frameIdx].
  by rewrite update_objects_frameIdx.
Qed.

Lemma draw_scene_scene vp r :
  scene (renderer_draw_scene vp r) =
  scene (renderer_update_objects (set_frameIdx (next_slot r) r)).
Proof.
  unfold renderer_draw_scene, draw_scene_counted; cbv zeta.
  rewrite light_loop_spec.
  match goal with
  | |- context [for_range ?n (draw_step ?fr) (?vc, ?r0)] =>
      pose proof (draw_loop_spec fr n vc r0) as H;
      destruct (for_range n (draw_step fr) (vc, r0)) as [vc' r']
  end.
  cbn [snd] in *. by subst r'.
Qed.

Lemma draw_scene_calls vp r :
  calls (renderer_draw_scene vp r) = calls r ++ frame_calls vp r.
Proof.
  unfold renderer_draw_scene, draw_scene_counted; cbv zeta.
  rewrite light_loop_spec.
  match goal with
  | |- context [for_range ?n (draw_step ?fr) (?vc, ?r0)] =>
      pose proof (draw_loop_spec fr n vc r0) as H;
      destruct (for_range n (draw_step fr) (vc, r0)) as [vc' r']
  end.
  cbn [snd] in *. subst r'. cbn [emit calls scene frameIdx].
  rewrite update_objects_calls, update_objects_frameIdx.
  rewrite (update_objects_scene (set_frameIdx _ r)).
  unfold frame_calls, updated_objects; cbn.
  by rewrite <- !app_assoc.
Qed.

Lemma calls_since_frame vp r :
  calls_since r (renderer_draw_scene vp r) = frame_calls vp r.
Proof. unfold calls_since. by rewrite draw_scene_calls, drop_app_length. Qed.

(** *** Where the calls of a frame come from *)

Lemma draw_object_eq frustum f i o :
  draw_object frustum f i o =
  if passes_draw_tests frustum o
  then match dpl o with
       | Some block =>
           [c_matrix_set (MatPtr i (mat_idx_of f o)) true; c_rspq_block_run block]
       | None => []
       end
  else [].
Proof.
  unfold draw_object, passes_draw_tests.
  destruct (visible o); [|done].
  destruct (t3d_frustum_vs_aabb _ _ _); [|done].
  by destruct (dpl o).
Qed.

Lemma passes_draw_tests_dpl frustum o :
  passes_draw_tests frustum o = true -> exists block, dpl o = Some block.
Proof.
  unfold passes_draw_tests. intros H.
  apply andb_prop in H as [_ H]. by apply bool_decide_eq_true in H as [b ->]; eauto.
Qed.

Lemma draw_calls_elem frustum f (os : list ArmObject) n (c : call) :
  c ∈ draw_calls frustum f os n <->
  exists j o, (j < n)%nat /\ os !! j = Some o /\ c ∈ draw_object frustum f j o.
Proof.
  unfold draw_calls. rewrite list_elem_of_In, in_flat_map. split.
  - intros (j & Hj & Hc). apply in_seq in Hj.
    destruct (os !! j) as [o|] eqn:Ho; [|done].
    exists j, o. rewrite list_elem_of_In. repeat split; done || lia.
  - intros (j & o & Hj & Ho & Hc). exists j. split; [apply in_seq; lia|].
    rewrite Ho. by apply list_elem_of_In.
Qed.

(** The calls of object [i] sit in one piece in the draw loop's trace. *)
Lemma draw_calls_split frustum f (os : list ArmObject) n i o :
  (i < n)%nat -> os !! i = Some o ->
  exists pre post,
    draw_calls frustum f os n = pre ++ draw_object frustum f i o ++ post.
Proof.
  intros Hi Ho. induction n as [|n IH]; [lia|].
  rewrite draw_calls_S. destruct (decide (i = n)) as [->|Hne].
  - rewrite Ho. exists (draw_calls frustum f os n), []. by rewrite app_nil_r.
  - destruct IH as (pre & post & ->); [lia|].
    eexists pre, _. by rewrite <- !app_assoc.
Qed.

(** A bind in a frame's trace comes from the draw loop, for an object that
    passed its tests, and names that object's active slot. *)
Lemma frame_calls_bind vp r i k b :
  c_matrix_set (MatPtr i k) b ∈ frame_calls vp r ->
  exists o,
    (i < object_count (scene r))%nat /\ updated_objects r !! i = Some o
    /\ passes_draw_tests (viewFrustum vp) o = true
    /\ k = mat_idx_of (next_slot r) o /\ b = true.
Proof.
  unfold frame_calls; cbv zeta. rewrite !elem_of_app.
  intros [H|[H|[H|[H|[H|H]]]]].
  - apply update_calls_elem in H as (j & o & _ & _ & H).
    rewrite update_object_calls in H.
    destruct (is_removed o); [by apply elem_of_nil in H|].
    destruct (N.eqb _ _); [by apply elem_of_nil in H|].
    by apply list_elem_of_singleton in H.
  - repeat (apply elem_of_cons in H as [H|H]; [done|]). by apply elem_of_nil in H.
  - unfold light_calls in H. rewrite list_elem_of_In, in_flat_map in H.
    destruct H as (j & _ & H). destruct (lights (scene r) !! j); [|done].
    by destruct H as [H|[]].
  - by apply list_elem_of_singleton in H.
  - apply draw_calls_elem in H as (j & o & Hj & Ho & H).
    rewrite draw_object_eq in H.
    destruct (passes_draw_tests (viewFrustum vp) o) eqn:Hp; [|by apply elem_of_nil in H].
    destruct (dpl o); [|by apply elem_of_nil in H].
    apply elem_of_cons in H as [H|H]; [|by apply list_elem_of_singleton in H].
    injection H as -> -> ->. by exists o.
  - by apply list_elem_of_singleton in H.
Qed.

(** A composition in a frame's trace comes from the update loop and names
    the active slot of the object it refreshes. *)
Lemma frame_calls_compose vp r i k s q l :
  c_mat4fp_from_srt (MatPtr i k) s q l ∈ frame_calls vp r ->
  exists o,
    (i < object_count (scene r))%nat /\ objects (scene r) !! i = Some o
    /\ k = mat_idx_of (next_slot r) o.
Proof.
  unfold frame_calls; cbv zeta. rewrite !elem_of_app.
  intros [H|[H|[H|[H|[H|H]]]]].
  - apply update_calls_elem in H as (j & o & Hj & Ho & H).
    rewrite update_object_calls in H.
    destruct (is_removed o); [by apply elem_of_nil in H|].
    destruct (N.eqb _ _); [by apply elem_of_nil in H|].
    apply list_elem_of_singleton in H. injection H as -> -> _ _ _. by exists o.
  - repeat (apply elem_of_cons in H as [H|H]; [done|]). by apply elem_of_nil in H.
  - unfold light_calls in H. rewrite list_elem_of_In, in_flat_map in H.
    destruct H as (j & _ & H). destruct (lights (scene r) !! j); [|done].
    by destruct H as [H|[]].
  - by apply list_elem_of_singleton in H.
  - apply draw_calls_elem in H as (j & o & _ & _ & H).
    rewrite draw_object_eq in H.
    destruct (passes_draw_tests (viewFrustum vp) o); [|by apply elem_of_nil in H].
    destruct (dpl o); [|by apply elem_of_nil in H].
    apply elem_of_cons in H as [H|H]; [done|]. by apply list_elem_of_singleton in H.
  - by apply list_elem_of_singleton in H.
Qed.

(** An object that passes the three tests is submitted. *)
Lemma frame_calls_submits vp r i o :
  (i < object_count (scene r))%nat -> updated_objects r !! i = Some o ->
  passes_draw_tests (viewFrustum vp) o = true ->
  submitted i (frame_calls vp r).
Proof.
  intros Hi Ho Hp.
  destruct (draw_calls_split (viewFrustum vp) (next_slot r) _ _ _ _ Hi Ho)
    as (pre & post & Hsplit).
  rewrite draw_object_eq, Hp in Hsplit.
  destruct (passes_draw_tests_dpl _ _ Hp) as [block Hb]. rewrite Hb in Hsplit.
  unfold submitted, frame_calls; cbv zeta. rewrite Hsplit.
  eexists _, block, _, _. rewrite !app_assoc.
  rewrite <- (app_assoc _ [_; _] post), <- (app_assoc _ ([_; _] ++ post)).
  reflexivity.
Qed.

(** The draw loop decides on three tests: the object is submitted exactly
    when it is visible, its cached box passes the frustum test and its
    display list is loaded. *)
Lemma draw_scene_submits vp r i o :
  (i < object_count (scene r))%nat -> updated_objects r !! i = Some o ->
  submitted i (calls_since r (renderer_draw_scene vp r)) <->
  passes_draw_tests (viewFrustum vp) o = true.
Proof.
  intros Hi Ho. rewrite calls_since_frame. split.
  - intros (k & block & pre & post & Hcs).
    assert (c_matrix_set (MatPtr i k) true ∈ frame_calls vp r) as Hin.
    { rewrite Hcs. apply elem_of_app. right. apply list_elem_of_here. }
    apply frame_calls_bind in Hin as (o' & _ & Ho' & Hp & _). congruence.
  - by apply frame_calls_submits.
Qed.

End DrawLoop.

(** ** Properties of the update pass *)
Section UpdateProperties.
Context `{t3d : T3D} `{engine : Engine}.
Implicit Types (o obj : ArmObject) (f : Z) (i j k n : nat) (r : Renderer).

(** C6.  An object whose [dirty] counter is zero comes out of
    [renderer_update_objects] exactly as it went in: every field, the
    [model_mat] slots and the cached world AABB included, is the same, and
    the pass makes no composition call for it. *)
Theorem clean_object_untouched r i o :
  objects (scene r) !! i = Some o ->
  dirty (transform o) = 0%N ->
  objects (scene (renderer_update_objects r)) !! i = Some o
  /\ recomputations i (calls (renderer_update_objects r)) = recomputations i (calls r).
Proof. apply update_objects_clean. Qed.

Lemma update_passes_S n r :
  update_passes (S n) r = renderer_update_objects (update_passes n r).
Proof. reflexivity. Qed.

(** The state of one object along consecutive update passes: after [j]
    passes the counter has gone down by [j], stopping at zero, and as many
    recomputations were made. *)
Lemma update_passes_spec r i o k j :
  objects (scene r) !! i = Some o ->
  (i < object_count (scene r))%nat ->
  is_removed o = false ->
  dirty (transform o) = N.of_nat k ->
  (i < object_count (scene (update_passes j r)))%nat
  /\ exists o',
      objects (scene (update_passes j r)) !! i = Some o'
      /\ is_removed o' = false
      /\ dirty (transform o') = N.of_nat (k - j)
      /\ recomputations i (calls (update_passes j r)) =
         (recomputations i (calls r) + Nat.min j k)%nat.
Proof.
  intros Ho Hi Hr Hd. induction j as [|j IH].
  - split; [done|]. exists o. split; [done|]. split; [done|].
    split; [rewrite Hd; f_equal; lia | cbn; lia].
  - destruct IH as (Hij & oj & Hoj & Hrj & Hdj & Hcj).
    rewrite update_passes_S.
    set (rj := update_passes j r) in *.
    split; [by rewrite update_objects_count|].
    exists (update_object (frameIdx rj) i oj).1. split; [|split; [|split]].
    + by apply update_objects_lookup.
    + by rewrite (proj1 (update_object_frame _ _ _)).
    + rewrite update_object_dirty_pred by done. rewrite Hdj. lia.
    + rewrite (update_objects_recomputations _ _ _ Hoj Hij), Hrj, Hcj, Hdj.
      destruct (N.eqb_spec (N.of_nat (k - j)) 0); lia.
Qed.

Lemma update_passes_frameIdx n r : frameIdx (update_passes n r) = frameIdx r.
Proof.
  induction n as [|n IH]; [done|].
  by rewrite update_passes_S, update_objects_frameIdx.
Qed.

(** One pass over a dirty, live object: the composition call, the matrix in
    the active slot, the box in closed form and the counter. *)
Lemma update_objects_recomputed r i o :
  objects (scene r) !! i = Some o ->
  (i < object_count (scene r))%nat ->
  is_removed o = false ->
  dirty (transform o) ≠ 0%N ->
  exists o',
    objects (scene (renderer_update_objects r)) !! i = Some o'
    /\ (slot_exists (mat_idx_of (frameIdx r) o) o ->
        model_mat o' !! Z.to_nat (mat_idx_of (frameIdx r) o) =
        Some (t3d_mat4fp_from_srt (scale (transform o)) (rot (transform o))
                                  (loc (transform (sanitize o)))))
    /\ cached_world_aabb_min o' =
       world_aabb_min (rot (transform o)) (loc (transform (sanitize o)))
                      (bounds_min o) (bounds_max o)
    /\ cached_world_aabb_max o' =
       world_aabb_max (rot (transform o)) (loc (transform (sanitize o)))
                      (bounds_min o) (bounds_max o).
Proof.
  intros Ho Hi Hr Hd.
  eexists. split; [by apply update_objects_lookup|].
  rewrite update_object_dirty, recompute_eq by done.
  cbn [fst model_mat cached_world_aabb_min cached_world_aabb_max].
  rewrite mat_idx_of_sanitize.
  destruct (sanitize_frame o) as (Hq & Hs & _ & Hmn & Hmx & Hm & _).
  rewrite Hq, Hmn, Hmx. split; [|done].
  intros [Hk Hlen]. rewrite composed_mats_lookup, Hq, Hs; [done|].
  split; [done|]. by rewrite Hm.
Qed.

(** C3.  Dirty decay.  For an object that is not removed and whose counter
    is [k]: every one of the first [k] passes finds the counter above zero,
    recomputes once and takes exactly one off.  Recomputing is the whole of
    it: the pass makes one composition call for the object, from its scale,
    its rotation and the location the validation step left, stores that
    matrix in the active slot of [model_mat], and sets the cached world AABB
    to the box of the rotated local bounds at that location.  After [k]
    passes the counter is zero and [k] recomputations were made; pass [k+1]
    recomputes nothing and leaves the object, its matrices, its cached box
    and its zero counter, as it is. *)
Theorem dirty_decay r i o k :
  objects (scene r) !! i = Some o ->
  (i < object_count (scene r))%nat ->
  is_removed o = false ->
  dirty (transform o) = N.of_nat k ->
  (forall j, (j < k)%nat ->
     exists oj oj',
       objects (scene (update_passes j r)) !! i = Some oj
       /\ objects (scene (update_passes (S j) r)) !! i = Some oj'
       /\ (0 < dirty (transform oj))%N
       /\ dirty (transform oj') = (dirty (transform oj) - 1)%N
       /\ recomputations i (calls (update_passes (S j) r)) =
          S (recomputations i (calls (update_passes j r)))
       /\ c_mat4fp_from_srt (MatPtr i (mat_idx_of (frameIdx r) oj))
            (scale (transform oj)) (rot (transform oj))
            (loc (transform (sanitize oj)))
          ∈ calls_since (update_passes j r) (update_passes (S j) r)
       /\ (slot_exists (mat_idx_of (frameIdx r) oj) oj ->
           model_mat oj' !! Z.to_nat (mat_idx_of (frameIdx r) oj) =
           Some (t3d_mat4fp_from_srt (scale (transform oj)) (rot (transform oj))
                                     (loc (transform (sanitize oj)))))
       /\ cached_world_aabb_min oj' =
          world_aabb_min (rot (transform oj)) (loc (transform (sanitize oj)))
                         (bounds_min oj) (bounds_max oj)
       /\ cached_world_aabb_max oj' =
          world_aabb_max (rot (transform oj)) (loc (transform (sanitize oj)))
                         (bounds_min oj) (bounds_max oj))
  /\ (exists ok,
        objects (scene (update_passes k r)) !! i = Some ok
        /\ dirty (transform ok) = 0%N
        /\ recomputations i (calls (update_passes k r)) =
           (recomputations i (calls r) + k)%nat
        /\ objects (scene (update_passes (S k) r)) !! i = Some ok
        /\ recomputations i (calls (update_passes (S k) r)) =
           recomputations i (calls (update_passes k r))).
Proof.
  intros Ho Hi Hr Hd. split.
  - intros j Hj.
    destruct (update_passes_spec r i o k j Ho Hi Hr Hd)
      as (Hij & oj & Hoj & Hrj & Hdj & Hcj).
    destruct (update_passes_spec r i o k (S j) Ho Hi Hr Hd)
      as (_ & oj' & Hoj' & _ & Hdj' & Hcj').
    assert (dirty (transform oj) ≠ 0%N) as Hnz by (rewrite Hdj; lia).
    destruct (update_objects_recomputed (update_passes j r) i oj Hoj Hij Hrj Hnz)
      as (oj'' & Hoj'' & Hslot & Hmn & Hmx).
    rewrite <- update_passes_S, Hoj' in Hoj''. injection Hoj'' as <-.
    pose proof (update_objects_compose (update_passes j r) i oj Hoj Hij Hrj Hnz) as Hc.
    rewrite <- update_passes_S, update_passes_frameIdx in Hc.
    rewrite update_passes_frameIdx in Hslot.
    exists oj, oj'. repeat split; try done; try lia.
  - destruct (update_passes_spec r i o k k Ho Hi Hr Hd)
      as (Hik & ok & Hok & _ & Hdk & Hck).
    rewrite Nat.sub_diag in Hdk. rewrite Nat.min_id in Hck.
    exists ok. split; [done|]. split; [done|]. split; [done|].
    rewrite update_passes_S.
    by apply update_objects_clean.
Qed.

(** C4.  Identity rotation.  A dirty, not removed object with a safe
    transform, rotation (0,0,0,1), location (2,3,4) and local bounds
    (-1,-1,-1) to (1,1,1) leaves [renderer_update_objects] with the cached
    world AABB (1,2,3) to (3,4,5). *)
Theorem identity_rotation_aabb r i o :
  objects (scene r) !! i = Some o ->
  (i < object_count (scene r))%nat ->
  is_removed o = false ->
  (0 < dirty (transform o))%N ->
  transform_is_safe (loc (transform o)) (scale (transform o)) = true ->
  rot (transform o) = mkQuat (F32.of_Z 0) (F32.of_Z 0) (F32.of_Z 0) (F32.of_Z 1) ->
  loc (transform o) = vec3_of_Z 2 3 4 ->
  bounds_min o = vec3_of_Z (-1) (-1) (-1) ->
  bounds_max o = vec3_of_Z 1 1 1 ->
  exists o',
    objects (scene (renderer_update_objects r)) !! i = Some o'
    /\ cached_world_aabb_min o' = vec3_of_Z 1 2 3
    /\ cached_world_aabb_max o' = vec3_of_Z 3 4 5.
Proof.
  intros Ho Hi Hr Hd Hsafe Hq Hl Hmn Hmx.
  eexists. split; [by apply update_objects_lookup|].
  rewrite update_object_dirty, sanitize_safe, recompute_eq by (done || lia).
  cbn [fst cached_world_aabb_min cached_world_aabb_max].
  rewrite Hq, Hl, Hmn, Hmx. split; by vm_compute.
Qed.

(** C9.  A rejected transform does not leave the derived state stale.  For
    a dirty, not removed object the validator rejects, the pass runs the
    same recomputation as for a valid transform, on the object moved to the
    origin and hidden: the matrix is composed from the object's own scale
    and rotation and the origin and stored in the active slot, the cached
    world AABB is that of the rotated local box at the origin, and the
    counter goes down by one. *)
Theorem rejected_transform_still_recomputed r i o :
  objects (scene r) !! i = Some o ->
  (i < object_count (scene r))%nat ->
  is_removed o = false ->
  (0 < dirty (transform o))%N ->
  transform_is_safe (loc (transform o)) (scale (transform o)) = false ->
  exists o',
    objects (scene (renderer_update_objects r)) !! i = Some o'
    /\ o' = (recompute (frameIdx r) i (set_visible false (set_loc vec3_origin o))).1
    /\ c_mat4fp_from_srt (MatPtr i (mat_idx_of (frameIdx r) o))
          (scale (transform o)) (rot (transform o)) vec3_origin
        ∈ calls_since r (renderer_update_objects r)
    /\ recomputations i (calls (renderer_update_objects r)) =
       S (recomputations i (calls r))
    /\ (slot_exists (mat_idx_of (frameIdx r) o) o ->
        model_mat o' !! Z.to_nat (mat_idx_of (frameIdx r) o) =
        Some (t3d_mat4fp_from_srt (scale (transform o)) (rot (transform o))
                                  vec3_origin))
    /\ cached_world_aabb_min o' =
       world_aabb_min (rot (transform o)) vec3_origin (bounds_min o) (bounds_max o)
    /\ cached_world_aabb_max o' =
       world_aabb_max (rot (transform o)) vec3_origin (bounds_min o) (bounds_max o)
    /\ dirty (transform o') = (dirty (transform o) - 1)%N.
Proof.
  intros Ho Hi Hr Hd Hbad.
  assert (dirty (transform o) ≠ 0%N) as Hd' by lia.
  pose proof (update_objects_compose r i o Ho Hi Hr Hd') as Hc.
  rewrite sanitize_unsafe in Hc by done.
  eexists. split; [by apply update_objects_lookup|].
  rewrite update_object_dirty, sanitize_unsafe by done.
  split; [done|]. split; [exact Hc|]. split.
  { rewrite (update_objects_recomputations _ _ _ Ho Hi), Hr.
    destruct (N.eqb_spec (dirty (transform o)) 0); lia. }
  rewrite recompute_eq.
  cbn [fst model_mat cached_world_aabb_min cached_world_aabb_max transform dirty].
  split; [|destruct o as [[] ?]; cbn; repeat split; lia].
  intros Hs.
  change (mat_idx_of (frameIdx r) (set_visible false (set_loc vec3_origin o)))
    with (mat_idx_of (frameIdx r) o).
  rewrite composed_mats_lookup; [by destruct o as [[] ?]|].
  by destruct o as [[] ?].
Qed.

(** C10.  The update pass does not look at [visible].  A dirty, not removed
    object that is hidden is recomputed like any other: the matrix is
    composed from its transform (the location as the validation step left
    it) and stored in the active slot, the cached world AABB is recomputed
    from the same transform, the counter goes down by one, and the object
    stays hidden. *)
Theorem hidden_object_still_updated r i o :
  objects (scene r) !! i = Some o ->
  (i < object_count (scene r))%nat ->
  is_removed o = false ->
  (0 < dirty (transform o))%N ->
  visible o = false ->
  exists o',
    objects (scene (renderer_update_objects r)) !! i = Some o'
    /\ c_mat4fp_from_srt (MatPtr i (mat_idx_of (frameIdx r) o))
          (scale (transform o)) (rot (transform o)) (loc (transform (sanitize o)))
        ∈ calls_since r (renderer_update_objects r)
    /\ recomputations i (calls (renderer_update_objects r)) =
       S (recomputations i (calls r))
    /\ (slot_exists (mat_idx_of (frameIdx r) o) o ->
        model_mat o' !! Z.to_nat (mat_idx_of (frameIdx r) o) =
        Some (t3d_mat4fp_from_srt (scale (transform o)) (rot (transform o))
                                  (loc (transform (sanitize o)))))
    /\ cached_world_aabb_min o' =
       world_aabb_min (rot (transform o)) (loc (transform (sanitize o)))
                      (bounds_min o) (bounds_max o)
    /\ cached_world_aabb_max o' =
       world_aabb_max (rot (transform o)) (loc (transform (sanitize o)))
                      (bounds_min o) (bounds_max o)
    /\ dirty (transform o') = (dirty (transform o) - 1)%N
    /\ visible o' = false.
Proof.
  intros Ho Hi Hr Hd Hv.
  assert (dirty (transform o) ≠ 0%N) as Hd' by lia.
  eexists. split; [by apply update_objects_lookup|].
  split; [by apply update_objects_compose|]. split.
  { rewrite (update_objects_recomputations _ _ _ Ho Hi), Hr.
    destruct (N.eqb_spec (dirty (transform o)) 0); lia. }
  rewrite update_object_dirty, recompute_eq by done.
  cbn [fst model_mat cached_world_aabb_min cached_world_aabb_max transform
       dirty visible].
  rewrite mat_idx_of_sanitize.
  destruct (sanitize_frame o) as (Hq & Hs & Hdd & Hmn & Hmx & Hm & _).
  rewrite Hq, Hmn, Hmx, Hdd. split; [|repeat split; try lia].
  - intros [Hk Hlen]. rewrite composed_mats_lookup, Hq, Hs; [done|].
    split; [done|]. by rewrite Hm.
  - unfold sanitize. by destruct (negb _).
Qed.

(** C2.  Only the location is reset.  When the validator rejects a dirty,
    not removed object and still rejects its scale next to the origin, the
    matrix is composed from that scale all the same: the pair that reaches
    [t3d_mat4fp_from_srt] is the origin and the object's own scale, a pair
    the validator rejects. *)
Theorem unsafe_scale_reaches_composition r i o :
  objects (scene r) !! i = Some o ->
  (i < object_count (scene r))%nat ->
  is_removed o = false ->
  (0 < dirty (transform o))%N ->
  transform_is_safe (loc (transform o)) (scale (transform o)) = false ->
  transform_is_safe vec3_origin (scale (transform o)) = false ->
  exists (slot : Z) s q l,
    c_mat4fp_from_srt (MatPtr i slot) s q l ∈ calls_since r (renderer_update_objects r)
    /\ l = vec3_origin /\ s = scale (transform o)
    /\ transform_is_safe l s = false.
Proof.
  intros Ho Hi Hr Hd Hbad Hscale.
  assert (dirty (transform o) ≠ 0%N) as Hd' by lia.
  pose proof (update_objects_compose r i o Ho Hi Hr Hd') as Hc.
  rewrite sanitize_unsafe in Hc by done.
  eexists _, _, _, _. split; [exact Hc|]. by destruct o as [[] ?].
Qed.

End UpdateProperties.

(** ** Properties of the frame *)
Section FrameProperties.
Context `{t3d : T3D} `{engine : Engine}.
Implicit Types (o obj : ArmObject) (f k : Z) (i j n : nat) (r : Renderer).
Implicit Types (vp : T3DViewport).

Lemma draw_frames_S vp n r :
  draw_frames vp (S n) r = renderer_draw_scene vp (draw_frames vp n r).
Proof. reflexivity. Qed.

(** The slot index of frame [n+1], counted from the state [r]. *)
Lemma draw_frames_frameIdx vp n r :
  0 < FB_COUNT -> 0 <= frameIdx r ->
  frameIdx (draw_frames vp (S n) r) = (frameIdx r + 1 + Z.of_nat n) mod FB_COUNT.
Proof.
  intros HN Hf. induction n as [|n IH].
  - rewrite draw_frames_S, draw_scene_frameIdx. unfold next_slot.
    change (draw_frames vp 0 r) with r.
    rewrite Z.rem_mod_nonneg by lia. f_equal. lia.
  - rewrite draw_frames_S, draw_scene_frameIdx. unfold next_slot. rewrite IH.
    rewrite Z.rem_mod_nonneg
      by (pose proof (Z.mod_pos_bound (frameIdx r + 1 + Z.of_nat n) FB_COUNT HN); lia).
    rewrite Zplus_mod_idemp_l. f_equal. lia.
Qed.

(** The file-level index starts at 0 and every frame leaves it inside
    [0, FB_COUNT): the states a program can be in all satisfy the
    hypothesis of the slot rotation. *)
Lemma frameIdx_in_range vp n s :
  0 < FB_COUNT ->
  0 <= frameIdx (draw_frames vp n (renderer_init s)) < FB_COUNT.
Proof.
  intros HN. destruct n as [|n].
  - cbn. lia.
  - rewrite draw_frames_frameIdx by (done || cbn; lia).
    by apply Z.mod_pos_bound.
Qed.

Lemma mod_shift_inj N a x y :
  0 < N -> 0 <= x < N -> 0 <= y < N ->
  (a + x) mod N = (a + y) mod N -> x = y.
Proof.
  intros HN Hx Hy Heq.
  rewrite (Z.mod_eq (a + x)), (Z.mod_eq (a + y)) in Heq by lia.
  assert (x - y = N * ((a + x) / N - (a + y) / N)) as Hd by lia.
  assert ((a + x) / N - (a + y) / N = 0) by nia. lia.
Qed.

(** C7.  Slot rotation.  With [FB_COUNT] frame buffers and the frame index
    at any value the program can hold in it (any value from 0 up), the
    [FB_COUNT] consecutive calls of [renderer_draw_scene] run with slot
    indices that are 0 .. FB_COUNT-1 in some order, every one exactly once,
    each call moving the index to [(frameIdx + 1) mod FB_COUNT]; the call
    after them starts the same sequence again. *)
Theorem slot_rotation vp r :
  0 < FB_COUNT -> 0 <= frameIdx r ->
  slot_history vp (Z.to_nat FB_COUNT) r ≡ₚ seqZ 0 FB_COUNT
  /\ (forall n, frameIdx (renderer_draw_scene vp (draw_frames vp n r)) =
                (frameIdx (draw_frames vp n r) + 1) mod FB_COUNT)
  /\ (forall n, frameIdx (draw_frames vp (S n + Z.to_nat FB_COUNT) r) =
                frameIdx (draw_frames vp (S n) r)).
Proof.
  intros HN Hf. split; [|split].
  - apply submseteq_length_Permutation.
    + apply NoDup_submseteq.
      * unfold slot_history. apply NoDup_fmap_2_strong; [|apply NoDup_seq].
        intros x y Hx%elem_of_seq Hy%elem_of_seq Heq.
        rewrite !draw_frames_frameIdx in Heq by done.
        apply (inj Z.of_nat).
        apply (mod_shift_inj FB_COUNT (frameIdx r + 1)); lia.
      * intros x (j & -> & Hj%elem_of_seq)%list_elem_of_fmap.
        rewrite draw_frames_frameIdx by done.
        apply elem_of_seqZ.
        pose proof (Z.mod_pos_bound (frameIdx r + 1 + Z.of_nat j) FB_COUNT HN). lia.
    + unfold slot_history. rewrite length_fmap, length_seq, length_seqZ. lia.
  - intros n. rewrite draw_scene_frameIdx. unfold next_slot.
    apply Z.rem_mod_nonneg; [|lia].
    destruct n as [|n]; [cbn; lia|].
    rewrite draw_frames_frameIdx by done.
    pose proof (Z.mod_pos_bound (frameIdx r + 1 + Z.of_nat n) FB_COUNT HN). lia.
  - intros n. cbn [Nat.add]. rewrite !draw_frames_frameIdx by done.
    replace (frameIdx r + 1 + Z.of_nat (n + Z.to_nat FB_COUNT))
      with (frameIdx r + 1 + Z.of_nat n + 1 * FB_COUNT) by lia.
    apply Z_mod_plus_full.
Qed.

(** C8.  Slot binding.  Let [o] be object [i] as the frame leaves it.  Every
    matrix the frame binds for it is the one in slot 0 of [model_mat] when
    [o] is static, whatever the frame index, and the one in the slot of the
    frame's index when it is not; the object is bound there whenever it
    passes the tests of the draw loop.  The update pass of the frame writes
    that same slot: every composition it makes for the object names it, and
    when the object was dirty the slot holds the matrix of the transform
    the object ends the frame with. *)
Theorem slot_binding vp r i o :
  objects (scene (renderer_draw_scene vp r)) !! i = Some o ->
  let slot := if is_static o then 0 else frameIdx (renderer_draw_scene vp r) in
  let cs := calls_since r (renderer_draw_scene vp r) in
  (forall k b, c_matrix_set (MatPtr i k) b ∈ cs -> k = slot)
  /\ ((i < object_count (scene r))%nat ->
      passes_draw_tests (viewFrustum vp) o = true ->
      c_matrix_set (MatPtr i slot) true ∈ cs)
  /\ (forall k s q l, c_mat4fp_from_srt (MatPtr i k) s q l ∈ cs -> k = slot)
  /\ (forall o0,
        objects (scene r) !! i = Some o0 ->
        (i < object_count (scene r))%nat ->
        is_removed o0 = false -> (0 < dirty (transform o0))%N ->
        slot_exists slot o0 ->
        model_mat o !! Z.to_nat slot =
        Some (t3d_mat4fp_from_srt (scale (transform o)) (rot (transform o))
                                  (loc (transform o)))).
Proof.
  intros Ho. cbv zeta. rewrite calls_since_frame, draw_scene_frameIdx.
  rewrite draw_scene_scene in Ho. fold (updated_objects r) in Ho.
  split; [|split; [|split]].
  - intros k b (o' & _ & Ho' & _ & -> & _)%frame_calls_bind.
    rewrite Ho in Ho'. by injection Ho' as <-.
  - intros Hi Hp.
    destruct (frame_calls_submits vp r i o Hi Ho Hp) as (k & block & pre & post & Hcs).
    assert (c_matrix_set (MatPtr i k) true ∈ frame_calls vp r) as Hin.
    { rewrite Hcs. apply elem_of_app. right. apply list_elem_of_here. }
    pose proof Hin as (o' & _ & Ho' & _ & -> & _)%frame_calls_bind.
    rewrite Ho in Ho'. by injection Ho' as <-.
  - intros k s q l (o0 & Hi & Ho0 & ->)%frame_calls_compose.
    unfold updated_objects in Ho.
    rewrite (update_objects_lookup (set_frameIdx (next_slot r) r) i o0) in Ho by done.
    injection Ho as <-. unfold mat_idx_of.
    by rewrite (proj1 (proj2 (update_object_frame _ _ _))).
  - intros o0 Ho0 Hi Hr Hd Hslot.
    unfold updated_objects in Ho.
    rewrite (update_objects_lookup (set_frameIdx (next_slot r) r) i o0) in Ho by done.
    injection Ho as <-. cbn [set_frameIdx frameIdx] in *.
    rewrite (proj1 (proj2 (update_object_frame _ _ _))) in *.
    fold (mat_idx_of (next_slot r) o0) in *.
    rewrite update_object_dirty, recompute_eq by (done || lia).
    cbn [fst model_mat transform scale rot loc].
    rewrite mat_idx_of_sanitize. apply composed_mats_lookup.
    destruct Hslot as [Hk Hlen]. split; [done|].
    by rewrite (proj1 (proj2 (proj2 (proj2 (proj2 (proj2 (sanitize_frame o0))))))).
Qed.

(** C1.  The draw loop does not test [is_removed].  A removed object that
    still has [visible] set, a loaded display list and a cached box inside
    the view volume is submitted like a live one: its matrix is bound and
    its block is run. *)
Theorem removed_object_still_submitted vp r i o :
  objects (scene r) !! i = Some o ->
  (i < object_count (scene r))%nat ->
  is_removed o = true ->
  visible o = true ->
  is_Some (dpl o) ->
  t3d_frustum_vs_aabb (viewFrustum vp) (cached_world_aabb_min o)
                      (cached_world_aabb_max o) = true ->
  submitted i (calls_since r (renderer_draw_scene vp r)).
Proof.
  intros Ho Hi Hr Hv Hd Hfr.
  apply (draw_scene_submits vp r i o Hi).
  - unfold updated_objects.
    rewrite (update_objects_lookup (set_frameIdx (next_slot r) r) i o) by done.
    by rewrite update_object_removed.
  - unfold passes_draw_tests. rewrite Hv, Hfr. cbn.
    by apply bool_decide_eq_true.
Qed.

End FrameProperties.

(** ** The update pass under the validator of the specification *)
Section Sanitization.
Context `{t3d : T3D} (fb_count : Z) (in_range : F32.float -> bool).

Lemma nan_component_unsafe x :
  F32.is_nan x = true -> component_is_safe in_range x = false.
Proof. by destruct x. Qed.

(** A NaN on any axis of the location makes the validator reject the pair,
    whatever the scale and the range. *)
Lemma nan_location_unsafe (l s : T3DVec3) :
  has_nan l = true -> spec_transform_is_safe in_range l s = false.
Proof.
  unfold has_nan, spec_transform_is_safe, vec3_is_safe. intros H.
  apply orb_prop in H as [H|H]; [apply orb_prop in H as [H|H]|];
    rewrite (nan_component_unsafe _ H); cbn;
    by rewrite ?andb_false_r.
Qed.

(** C5.  Sanitization.  With a validator that rejects what is not finite, a
    dirty, not removed object whose location has a NaN on some axis leaves
    [renderer_update_objects] at the origin and hidden.  The pass is a
    total function, and the object is still in its slot of the scene, not
    removed; the array and the object count are as before. *)
Theorem nan_location_sanitized (r : Renderer) (i : nat) (o : ArmObject) :
  objects (scene r) !! i = Some o ->
  (i < object_count (scene r))%nat ->
  is_removed o = false ->
  (0 < dirty (transform o))%N ->
  has_nan (loc (transform o)) = true ->
  let r' := renderer_update_objects (engine := spec_engine fb_count in_range) r in
  exists o',
    objects (scene r') !! i = Some o'
    /\ loc (transform o') = vec3_origin
    /\ visible o' = false
    /\ is_removed o' = false
    /\ length (objects (scene r')) = length (objects (scene r))
    /\ object_count (scene r') = object_count (scene r).
Proof.
  intros Ho Hi Hr Hd Hnan. cbv zeta.
  pose proof (nan_location_unsafe _ (scale (transform o)) Hnan) as Hbad.
  eexists. split; [by apply update_objects_lookup|].
  rewrite update_object_dirty by (done || lia).
  rewrite (sanitize_unsafe (engine := spec_engine fb_count in_range)) by exact Hbad.
  rewrite recompute_eq. cbn [fst transform loc visible is_removed].
  rewrite update_objects_length, update_objects_count.
  by destruct o as [[] ?].
Qed.

End Sanitization.

(** ** The theorems on the sample scene *)
Module Runs.
Import Sample.
#[local] Existing Instance t3d.
#[local] Existing Instance engine.

Lemma clean_object_untouched_run :
  objects (scene (renderer_update_objects (start clean_cube))) !! 0%nat
    = Some clean_cube
  /\ recomputations 0 (calls (renderer_update_objects (start clean_cube)))
     = recomputations 0 (calls (start clean_cube)).
Proof.
  apply (clean_object_untouched (start clean_cube) 0 clean_cube); reflexivity.
Defined.

Lemma dirty_decay_run :
  (forall j, (j < 3)%nat ->
     exists oj oj',
       objects (scene (update_passes j (start cube))) !! 0%nat = Some oj
       /\ objects (scene (update_passes (S j) (start cube))) !! 0%nat = Some oj'
       /\ (0 < dirty (transform oj))%N
       /\ dirty (transform oj') = (dirty (transform oj) - 1)%N
       /\ recomputations 0 (calls (update_passes (S j) (start cube))) =
          S (recomputations 0 (calls (update_passes j (start cube))))
       /\ c_mat4fp_from_srt (MatPtr 0 (mat_idx_of (frameIdx (start cube)) oj))
            (scale (transform oj)) (rot (transform oj))
            (loc (transform (sanitize oj)))
          ∈ calls_since (update_passes j (start cube)) (update_passes (S j) (start cube))
       /\ (slot_exists (mat_idx_of (frameIdx (start cube)) oj) oj ->
           model_mat oj' !! Z.to_nat (mat_idx_of (frameIdx (start cube)) oj) =
           Some (t3d_mat4fp_from_srt (scale (transform oj)) (rot (transform oj))
                                     (loc (transform (sanitize oj)))))
       /\ cached_world_aabb_min oj' =
          world_aabb_min (rot (transform oj)) (loc (transform (sanitize oj)))
                         (bounds_min oj) (bounds_max oj)
       /\ cached_world_aabb_max oj' =
          world_aabb_max (rot (transform oj)) (loc (transform (sanitize oj)))
                         (bounds_min oj) (bounds_max oj))
  /\ (exists ok,
        objects (scene (update_passes 3 (start cube))) !! 0%nat = Some ok
        /\ dirty (transform ok) = 0%N
        /\ recomputations 0 (calls (update_passes 3 (start cube))) =
           (recomputations 0 (calls (start cube)) + 3)%nat
        /\ objects (scene (update_passes 4 (start cube))) !! 0%nat = Some ok
        /\ recomputations 0 (calls (update_passes 4 (start cube))) =
           recomputations 0 (calls (update_passes 3 (start cube)))).
Proof.
  apply (dirty_decay (start cube) 0 cube 3); reflexivity || (cbn; lia).
Defined.

Lemma identity_rotation_aabb_run :
  exists o',
    objects (scene (renderer_update_objects (start cube))) !! 0%nat = Some o'
    /\ cached_world_aabb_min o' = vec3_of_Z 1 2 3
    /\ cached_world_aabb_max o' = vec3_of_Z 3 4 5.
Proof.
  apply (identity_rotation_aabb (start cube) 0 cube);
    reflexivity || (cbn; lia) || (vm_compute; reflexivity).
Defined.

Lemma nan_location_sanitized_run :
  exists o',
    objects (scene (renderer_update_objects (start nan_cube))) !! 0%nat = Some o'
    /\ loc (transform o') = vec3_origin
    /\ visible o' = false
    /\ is_removed o' = false
    /\ length (objects (scene (renderer_update_objects (start nan_cube)))) =
       length (objects (scene (start nan_cube)))
    /\ object_count (scene (renderer_update_objects (start nan_cube))) =
       object_count (scene (start nan_cube)).
Proof.
  apply (nan_location_sanitized 3 in_range (start nan_cube) 0 nan_cube);
    reflexivity || (cbn; lia).
Defined.

Lemma rejected_transform_still_recomputed_run :
  exists o',
    objects (scene (renderer_update_objects (start nan_cube))) !! 0%nat = Some o'
    /\ o' = (recompute 0 0 (set_visible false (set_loc vec3_origin nan_cube))).1
    /\ c_mat4fp_from_srt (MatPtr 0 0) (vec3_of_Z 1 1 1) identity_quat vec3_origin
        ∈ calls_since (start nan_cube) (renderer_update_objects (start nan_cube))
    /\ recomputations 0 (calls (renderer_update_objects (start nan_cube))) =
       S (recomputations 0 (calls (start nan_cube)))
    /\ (slot_exists 0 nan_cube ->
        model_mat o' !! 0%nat =
        Some (t3d_mat4fp_from_srt (vec3_of_Z 1 1 1) identity_quat vec3_origin))
    /\ cached_world_aabb_min o' =
       world_aabb_min identity_quat vec3_origin (bounds_min nan_cube) (bounds_max nan_cube)
    /\ cached_world_aabb_max o' =
       world_aabb_max identity_quat vec3_origin (bounds_min nan_cube) (bounds_max nan_cube)
    /\ dirty (transform o') = (3 - 1)%N.
Proof.
  apply (rejected_transform_still_recomputed (start nan_cube) 0 nan_cube);
    reflexivity || (cbn; lia).
Defined.

Lemma hidden_object_still_updated_run :
  exists o',
    objects (scene (renderer_update_objects (start hidden_cube))) !! 0%nat = Some o'
    /\ c_mat4fp_from_srt (MatPtr 0 (mat_idx_of 0 hidden_cube))
          (scale (transform hidden_cube)) (rot (transform hidden_cube))
          (loc (transform (sanitize hidden_cube)))
        ∈ calls_since (start hidden_cube) (renderer_update_objects (start hidden_cube))
    /\ recomputations 0 (calls (renderer_update_objects (start hidden_cube))) =
       S (recomputations 0 (calls (start hidden_cube)))
    /\ (slot_exists (mat_idx_of 0 hidden_cube) hidden_cube ->
        model_mat o' !! Z.to_nat (mat_idx_of 0 hidden_cube) =
        Some (t3d_mat4fp_from_srt (scale (transform hidden_cube))
                (rot (transform hidden_cube))
                (loc (transform (sanitize hidden_cube)))))
    /\ cached_world_aabb_min o' =
       world_aabb_min (rot (transform hidden_cube))
                      (loc (transform (sanitize hidden_cube)))
                      (bounds_min hidden_cube) (bounds_max hidden_cube)
    /\ cached_world_aabb_max o' =
       world_aabb_max (rot (transform hidden_cube))
                      (loc (transform (sanitize hidden_cube)))
                      (bounds_min hidden_cube) (bounds_max hidden_cube)
    /\ dirty (transform o') = (dirty (transform hidden_cube) - 1)%N
    /\ visible o' = false.
Proof.
  apply (hidden_object_still_updated (start hidden_cube) 0 hidden_cube);
    reflexivity || (cbn; lia).
Defined.

Lemma slot_rotation_run :
  slot_history viewport (Z.to_nat FB_COUNT) (start cube) ≡ₚ seqZ 0 FB_COUNT
  /\ (forall n, frameIdx (renderer_draw_scene viewport (draw_frames viewport n (start cube))) =
                (frameIdx (draw_frames viewport n (start cube)) + 1) mod FB_COUNT)
  /\ (forall n, frameIdx (draw_frames viewport (S n + Z.to_nat FB_COUNT) (start cube)) =
                frameIdx (draw_frames viewport (S n) (start cube))).
Proof.
  apply (slot_rotation viewport (start cube)); cbn; lia.
Defined.

Lemma slot_binding_run :
  let slot := if is_static static_cube_after_frame then 0
              else frameIdx (renderer_draw_scene viewport (start static_cube)) in
  let cs := calls_since (start static_cube)
                        (renderer_draw_scene viewport (start static_cube)) in
  (forall k b, c_matrix_set (MatPtr 0 k) b ∈ cs -> k = slot)
  /\ ((0 < object_count (scene (start static_cube)))%nat ->
      passes_draw_tests (viewFrustum viewport) static_cube_after_frame = true ->
      c_matrix_set (MatPtr 0 slot) true ∈ cs)
  /\ (forall k s q l, c_mat4fp_from_srt (MatPtr 0 k) s q l ∈ cs -> k = slot)
  /\ (forall o0,
        objects (scene (start static_cube)) !! 0%nat = Some o0 ->
        (0 < object_count (scene (start static_cube)))%nat ->
        is_removed o0 = false -> (0 < dirty (transform o0))%N ->
        slot_exists slot o0 ->
        model_mat static_cube_after_frame !! Z.to_nat slot =
        Some (t3d_mat4fp_from_srt (scale (transform static_cube_after_frame))
                (rot (transform static_cube_after_frame))
                (loc (transform static_cube_after_frame)))).
Proof.
  apply (slot_binding viewport (start static_cube) 0 static_cube_after_frame).
  vm_compute; reflexivity.
Defined.

Lemma removed_object_still_submitted_run :
  is_removed removed_cube = true
  /\ submitted 0 (calls_since (start removed_cube)
                             (renderer_draw_scene viewport (start removed_cube))).
Proof.
  split; [reflexivity|].
  apply (removed_object_still_submitted viewport (start removed_cube) 0 removed_cube);
    try reflexivity; [cbn; lia | by eexists].
Defined.

Lemma unsafe_scale_reaches_composition_run :
  exists k s q l,
    c_mat4fp_from_srt (MatPtr 0 k) s q l
      ∈ calls_since (start nan_scale_cube) (renderer_update_objects (start nan_scale_cube))
    /\ l = vec3_origin /\ s = mkVec3 S754_nan F32.one F32.one
    /\ transform_is_safe l s = false.
Proof.
  apply (unsafe_scale_reaches_composition (start nan_scale_cube) 0 nan_scale_cube);
    reflexivity || (cbn; lia).
Defined.

End Runs.

(** ** What the update pass keeps *)
Section UpdateInvariants.
Context `{t3d : T3D} `{engine : Engine}.
Implicit Types (o obj : ArmObject) (f : Z) (i j k n : nat) (r : Renderer).

(** The object at any index after a pass: the loop body's result below
    [object_count], the object itself from there on. *)
Lemma update_objects_lookup_any r i o :
  objects (scene r) !! i = Some o ->
  objects (scene (renderer_update_objects r)) !! i =
  Some (if decide (i < object_count (scene r))%nat
        then (update_object (frameIdx r) i o).1 else o).
Proof.
  intros Ho. unfold renderer_update_objects.
  destruct (update_loop_spec (object_count (scene r)) r) as (_ & _ & _ & H & _).
  rewrite H, Ho. by destruct (decide _).
Qed.

Lemma update_object_visible f i o :
  visible (update_object f i o).1 = true -> visible o = true.
Proof.
  unfold update_object.
  destruct (is_removed o); [done|]. destruct (N.eqb _ _); [done|].
  rewrite recompute_eq. cbn [fst visible].
  unfold sanitize. by destruct (negb _).
Qed.

Lemma update_object_dirty_le f i o :
  (dirty (transform (update_object f i o).1) <= dirty (transform o))%N.
Proof.
  destruct (is_removed o) eqn:Hr.
  - rewrite update_object_removed by done. cbn. lia.
  - rewrite update_object_dirty_pred by done. lia.
Qed.

Lemma update_object_other_slot f i o j :
  j ≠ Z.to_nat (mat_idx_of f o) ->
  model_mat (update_object f i o).1 !! j = model_mat o !! j.
Proof.
  intros Hj. unfold update_object.
  destruct (is_removed o); [done|]. destruct (N.eqb _ _); [done|].
  rewrite recompute_eq. cbn [fst model_mat].
  rewrite mat_idx_of_sanitize, composed_mats_other by done.
  by destruct (sanitize_frame o) as (_ & _ & _ & _ & _ & -> & _).
Qed.

(** X1.  A removed object is skipped whole, dirty or not: the pass leaves the
    record as it is, the counter included, and composes nothing for it. *)
Theorem removed_object_skipped r i o :
  objects (scene r) !! i = Some o ->
  is_removed o = true ->
  objects (scene (renderer_update_objects r)) !! i = Some o
  /\ recomputations i (calls (renderer_update_objects r)) = recomputations i (calls r).
Proof.
  intros Ho Hr. split.
  - rewrite (update_objects_lookup_any r i o Ho).
    destruct (decide _); [|done]. by rewrite update_object_removed.
  - rewrite update_objects_calls, recomputations_app.
    rewrite (recomputations_update_calls _ _ _ _ _ Ho), recomputations_body, Hr.
    destruct (decide (i < _)%nat); [|lia]. destruct (decide (i = i)); lia.
Qed.

(** X2.  The pass changes objects below [object_count] and nothing else: the
    frame index, the world, the lights, both counts and the length of the
    object array are as before, and every array slot from [object_count] on
    holds what it held. *)
Theorem update_pass_footprint r :
  let r' := renderer_update_objects r in
  frameIdx r' = frameIdx r
  /\ world (scene r') = world (scene r)
  /\ lights (scene r') = lights (scene r)
  /\ light_count (scene r') = light_count (scene r)
  /\ object_count (scene r') = object_count (scene r)
  /\ length (objects (scene r')) = length (objects (scene r))
  /\ (forall j, (object_count (scene r) <= j)%nat ->
                objects (scene r') !! j = objects (scene r) !! j).
Proof.
  cbv zeta. rewrite update_objects_frameIdx, update_objects_length.
  rewrite (update_objects_scene r). cbn [set_objects world lights light_count
    object_count objects].
  repeat split.
  intros j Hj. unfold renderer_update_objects.
  destruct (update_loop_spec (object_count (scene r)) r) as (_ & _ & _ & H & _).
  rewrite H. destruct (decide _); [lia|done].
Qed.

(** X3.  Whatever the object, a pass never changes its removal flag, its
    static flag, its display list, its local bounds, its rotation, its scale
    or the number of its matrix slots; it never raises the dirty counter and
    never turns a hidden object visible. *)
Theorem update_pass_keeps r i o :
  objects (scene r) !! i = Some o ->
  exists o',
    objects (scene (renderer_update_objects r)) !! i = Some o'
    /\ is_removed o' = is_removed o /\ is_static o' = is_static o
    /\ dpl o' = dpl o
    /\ bounds_min o' = bounds_min o /\ bounds_max o' = bounds_max o
    /\ rot (transform o') = rot (transform o)
    /\ scale (transform o') = scale (transform o)
    /\ length (model_mat o') = length (model_mat o)
    /\ (dirty (transform o') <= dirty (transform o))%N
    /\ (visible o' = true -> visible o = true).
Proof.
  intros Ho. eexists. split; [by apply update_objects_lookup_any|].
  destruct (decide _); [|repeat split; done || lia].
  destruct (update_object_frame (frameIdx r) i o)
    as (H1 & H2 & H3 & H4 & H5 & H6 & H7 & H8).
  repeat split; try done.
  - apply update_object_dirty_le.
  - apply update_object_visible.
Qed.

(** X4.  A pass writes one matrix slot of an object at most, the active one
    (slot 0 for a static object, the frame index otherwise): every other slot
    keeps its matrix. *)
Theorem update_pass_other_slots r i o j :
  objects (scene r) !! i = Some o ->
  j ≠ Z.to_nat (mat_idx_of (frameIdx r) o) ->
  exists o',
    objects (scene (renderer_update_objects r)) !! i = Some o'
    /\ model_mat o' !! j = model_mat o !! j.
Proof.
  intros Ho Hj. eexists. split; [by apply update_objects_lookup_any|].
  destruct (decide _); [|done]. by apply update_object_other_slot.
Qed.

(** X5.  The valid path.  For a dirty, not removed object the validator
    accepts, the pass leaves location and visibility as they are, stores the
    matrix of the object's transform in the active slot, sets the cached box
    to that of the rotated local box at the object's location and takes one
    off the counter. *)
Theorem valid_transform_recomputed r i o :
  objects (scene r) !! i = Some o ->
  (i < object_count (scene r))%nat ->
  is_removed o = false ->
  (0 < dirty (transform o))%N ->
  transform_is_safe (loc (transform o)) (scale (transform o)) = true ->
  exists o',
    objects (scene (renderer_update_objects r)) !! i = Some o'
    /\ loc (transform o') = loc (transform o)
    /\ visible o' = visible o
    /\ (slot_exists (mat_idx_of (frameIdx r) o) o ->
        model_mat o' !! Z.to_nat (mat_idx_of (frameIdx r) o) = Some (composed o))
    /\ cached_world_aabb_min o' =
       world_aabb_min (rot (transform o)) (loc (transform o)) (bounds_min o) (bounds_max o)
    /\ cached_world_aabb_max o' =
       world_aabb_max (rot (transform o)) (loc (transform o)) (bounds_min o) (bounds_max o)
    /\ dirty (transform o') = (dirty (transform o) - 1)%N.
Proof.
  intros Ho Hi Hr Hd Hsafe.
  eexists. split; [by apply update_objects_lookup|].
  rewrite update_object_dirty, sanitize_safe, recompute_eq by (done || lia).
  cbn [fst transform loc visible model_mat cached_world_aabb_min
       cached_world_aabb_max dirty].
  repeat split; try lia.
  intros Hs. by apply composed_mats_lookup.
Qed.

(** X6.  The cached box is overwritten, not accumulated: what the box held
    before does not enter the result, and refreshing twice gives the box of
    refreshing once. *)
Theorem world_aabb_overwrites_cache o mn mx :
  update_world_aabb (set_cached_world_aabb mn mx o) = update_world_aabb o
  /\ update_world_aabb (update_world_aabb o) = update_world_aabb o.
Proof.
  rewrite !update_world_aabb_eq. by destruct o as [[] ?].
Qed.

End UpdateInvariants.

(** ** What a frame keeps *)
Section FrameInvariants.
Context `{t3d : T3D} `{engine : Engine}.
Implicit Types (o obj : ArmObject) (f k : Z) (i j n : nat) (r : Renderer).
Implicit Types (vp : T3DViewport).

(** The object at any index after a frame. *)
Lemma draw_scene_lookup vp r i o :
  objects (scene r) !! i = Some o ->
  objects (scene (renderer_draw_scene vp r)) !! i =
  Some (if decide (i < object_count (scene r))%nat
        then (update_object (next_slot r) i o).1 else o).
Proof.
  intros Ho. rewrite draw_scene_scene.
  by rewrite (update_objects_lookup_any (set_frameIdx (next_slot r) r) i o).
Qed.

Lemma draw_scene_count vp r :
  object_count (scene (renderer_draw_scene vp r)) = object_count (scene r).
Proof. by rewrite draw_scene_scene, update_objects_count. Qed.

Lemma draw_scene_length vp r :
  length (objects (scene (renderer_draw_scene vp r))) = length (objects (scene r)).
Proof. by rewrite draw_scene_scene, update_objects_length. Qed.

(** An object found after a frame was in the array before it. *)
Lemma draw_scene_lookup_inv vp r i o' :
  objects (scene (renderer_draw_scene vp r)) !! i = Some o' ->
  exists o,
    objects (scene r) !! i = Some o
    /\ o' = if decide (i < object_count (scene r))%nat
            then (update_object (next_slot r) i o).1 else o.
Proof.
  intros Ho'. pose proof (lookup_lt_Some _ _ _ Ho') as Hlt.
  rewrite draw_scene_length in Hlt.
  destruct (lookup_lt_is_Some_2 _ _ Hlt) as [o Ho].
  exists o. split; [done|].
  rewrite (draw_scene_lookup vp r i o Ho) in Ho'. by injection Ho' as <-.
Qed.

Lemma draw_frames_count vp n r :
  object_count (scene (draw_frames vp n r)) = object_count (scene r).
Proof.
  induction n as [|n IH]; [done|]. by rewrite draw_frames_S, draw_scene_count.
Qed.

(** A composition in a frame's trace is made for a dirty, live object. *)
Lemma frame_calls_compose_dirty vp r i k s q l :
  c_mat4fp_from_srt (MatPtr i k) s q l ∈ frame_calls vp r ->
  exists o,
    (i < object_count (scene r))%nat /\ objects (scene r) !! i = Some o
    /\ quiet o = false.
Proof.
  unfold frame_calls; cbv zeta. rewrite !elem_of_app.
  intros [H|[H|[H|[H|[H|H]]]]].
  - apply update_calls_elem in H as (j & o & Hj & Ho & H).
    rewrite update_object_calls in H.
    destruct (is_removed o) eqn:Hrm; [by apply elem_of_nil in H|].
    destruct (N.eqb _ _) eqn:Hz; [by apply elem_of_nil in H|].
    apply list_elem_of_singleton in H. injection H as -> _ _ _ _.
    exists o. unfold quiet. by rewrite Hrm, Hz.
  - repeat (apply elem_of_cons in H as [H|H]; [done|]). by apply elem_of_nil in H.
  - unfold light_calls in H. rewrite list_elem_of_In, in_flat_map in H.
    destruct H as (j & _ & H). destruct (lights (scene r) !! j); [|done].
    by destruct H as [H|[]].
  - by apply list_elem_of_singleton in H.
  - apply draw_calls_elem in H as (j & o & _ & _ & H).
    rewrite draw_object_eq in H.
    destruct (passes_draw_tests (viewFrustum vp) o); [|by apply elem_of_nil in H].
    destruct (dpl o); [|by apply elem_of_nil in H].
    apply elem_of_cons in H as [H|H]; [done|]. by apply list_elem_of_singleton in H.
  - by apply list_elem_of_singleton in H.
Qed.

(** X7.  A scene that counts no object: the update pass is the identity, and
    a frame leaves the scene as it is and makes the calls of the prologue,
    one call per light, a push and a pop, and no bind, run or composition,
    whatever the array holds. *)
Theorem empty_scene_frame vp r :
  object_count (scene r) = 0%nat ->
  renderer_update_objects r = r
  /\ scene (renderer_draw_scene vp r) = scene r
  /\ calls_since r (renderer_draw_scene vp r) =
     frame_prologue (scene r)
     ++ light_calls (lights (scene r)) (light_count (scene r))
     ++ [c_matrix_push_pos 1; c_matrix_pop 1].
Proof.
  intros H0. split; [|split].
  - unfold renderer_update_objects. by rewrite H0.
  - rewrite draw_scene_scene. unfold renderer_update_objects.
    cbn [set_frameIdx scene]. by rewrite H0.
  - rewrite calls_since_frame. unfold frame_calls; cbv zeta. by rewrite H0.
Qed.

(** X13.  The draw decision is three tests and no more.  Object [i], as the
    frame leaves it, is submitted (its matrix bound and a display list run
    right after) if and only if it is visible, its cached box passes the
    frustum test and its display list is loaded. *)
Theorem draw_decision vp r i o :
  (i < object_count (scene r))%nat ->
  objects (scene (renderer_draw_scene vp r)) !! i = Some o ->
  submitted i (calls_since r (renderer_draw_scene vp r)) <->
  visible o = true
  /\ t3d_frustum_vs_aabb (viewFrustum vp) (cached_world_aabb_min o)
                         (cached_world_aabb_max o) = true
  /\ is_Some (dpl o).
Proof.
  intros Hi Ho. rewrite draw_scene_scene in Ho.
  rewrite (draw_scene_submits vp r i o Hi Ho). unfold passes_draw_tests.
  rewrite !andb_true_iff, bool_decide_eq_true. tauto.
Qed.

(** X15.  A frame over a scene at rest.  When every counted object is removed
    or has a zero counter, the frame leaves the whole scene as it was and
    composes no matrix: only the frame index and the trace move. *)
Theorem quiet_scene_frame vp r :
  (forall i o, (i < object_count (scene r))%nat ->
               objects (scene r) !! i = Some o -> quiet o = true) ->
  scene (renderer_draw_scene vp r) = scene r
  /\ (forall out s q l,
        c_mat4fp_from_srt out s q l ∉ calls_since r (renderer_draw_scene vp r)).
Proof.
  intros Hq. split.
  - rewrite draw_scene_scene, update_objects_scene.
    cbn [set_frameIdx scene].
    assert (objects (scene (renderer_update_objects (set_frameIdx (next_slot r) r)))
            = objects (scene r)) as ->.
    { apply list_eq. intros j.
      destruct (objects (scene r) !! j) as [o|] eqn:Ho.
      - rewrite (update_objects_lookup_any (set_frameIdx (next_slot r) r) j o Ho).
        cbn [set_frameIdx scene frameIdx].
        destruct (decide _) as [Hj|]; [|done].
        specialize (Hq j o Hj Ho). unfold quiet in Hq.
        apply orb_prop in Hq as [Hrm|Hz].
        + by rewrite update_object_removed.
        + apply N.eqb_eq in Hz. by rewrite update_object_clean.
      - apply lookup_ge_None. rewrite update_objects_length.
        by apply lookup_ge_None. }
    by destruct (scene r).
  - intros [i k] s q l Hin. rewrite calls_since_frame in Hin.
    apply frame_calls_compose_dirty in Hin as (o & Hi & Ho & Hnq).
    specialize (Hq i o Hi Ho). congruence.
Qed.

(** Frames keep the number of matrix slots of every object. *)
Lemma draw_frames_full_slots vp n r :
  (forall j o, objects (scene r) !! j = Some o -> full_slots o) ->
  forall j o, objects (scene (draw_frames vp n r)) !! j = Some o -> full_slots o.
Proof.
  intros Hall. induction n as [|n IH]; [done|].
  intros j o' Ho'. rewrite draw_frames_S in Ho'.
  apply draw_scene_lookup_inv in Ho' as (o & Ho & ->).
  specialize (IH j o Ho). unfold full_slots in *.
  destruct (decide _); [|done].
  by rewrite (proj2 (proj2 (proj2 (proj2 (proj2 (proj2 (proj2
               (update_object_frame _ _ _)))))))).
Qed.

(** X16.  No matrix access leaves the array.  In every state the renderer
    reaches from its initial one by drawing frames, over a scene whose
    objects have [FB_COUNT] matrix slots each, the active slot of every
    object (slot 0 or the frame index) is a slot of its [model_mat] array. *)
Theorem active_slot_in_bounds vp n s i o :
  0 < FB_COUNT ->
  (forall j oj, objects s !! j = Some oj -> full_slots oj) ->
  objects (scene (draw_frames vp n (renderer_init s))) !! i = Some o ->
  slot_exists (mat_idx_of (frameIdx (draw_frames vp n (renderer_init s))) o) o.
Proof.
  intros HN Hall Ho.
  pose proof (draw_frames_full_slots vp n (renderer_init s) Hall i o Ho) as Hfull.
  pose proof (frameIdx_in_range vp n s HN) as Hf.
  unfold slot_exists, mat_idx_of, full_slots in *. rewrite Hfull.
  destruct (is_static o); lia.
Qed.

(** X17.  An object the validator rejects is not drawn in the frame that
    rejects it: the update pass of the frame hides it before the draw loop
    runs, so the frame binds none of its matrices and does not submit it. *)
Theorem rejected_object_not_drawn vp r i o :
  objects (scene r) !! i = Some o ->
  (i < object_count (scene r))%nat ->
  is_removed o = false ->
  (0 < dirty (transform o))%N ->
  transform_is_safe (loc (transform o)) (scale (transform o)) = false ->
  (forall k b, c_matrix_set (MatPtr i k) b ∉ calls_since r (renderer_draw_scene vp r))
  /\ ~ submitted i (calls_since r (renderer_draw_scene vp r)).
Proof.
  intros Ho Hi Hr Hd Hbad.
  assert (forall k b,
            c_matrix_set (MatPtr i k) b ∉ calls_since r (renderer_draw_scene vp r)) as Hno.
  { intros k b Hin. rewrite calls_since_frame in Hin.
    apply frame_calls_bind in Hin as (o' & _ & Ho' & Hp & _).
    unfold updated_objects in Ho'.
    rewrite (update_objects_lookup (set_frameIdx (next_slot r) r) i o) in Ho' by done.
    injection Ho' as <-.
    rewrite update_object_dirty, sanitize_unsafe, recompute_eq in Hp by (done || lia).
    unfold passes_draw_tests in Hp. by cbn in Hp. }
  split; [done|].
  intros (k & block & pre & post & Hcs). apply (Hno k true).
  rewrite Hcs. apply elem_of_app. right. apply list_elem_of_here.
Qed.

End FrameInvariants.

(** ** Objects along consecutive frames *)
Section FrameSequences.
Context `{t3d : T3D} `{engine : Engine}.
Implicit Types (o obj : ArmObject) (f k : Z) (i j n d : nat) (r : Renderer).
Implicit Types (vp : T3DViewport).

(** The slot index the frame after [n] frames runs with. *)
Lemma next_slot_frames vp n r :
  0 < FB_COUNT -> 0 <= frameIdx r ->
  next_slot (draw_frames vp n r) = (frameIdx r + Z.of_nat (S n)) mod FB_COUNT.
Proof.
  intros HN Hf. rewrite <- (draw_scene_frameIdx vp), <- draw_frames_S.
  rewrite draw_frames_frameIdx by done. f_equal. lia.
Qed.

(** Every call made over [n] frames was made by one of them. *)
Lemma draw_frames_calls vp n r :
  exists cs,
    calls (draw_frames vp n r) = calls r ++ cs
    /\ forall c : call, c ∈ cs ->
         exists m, (m < n)%nat /\ c ∈ frame_calls vp (draw_frames vp m r).
Proof.
  induction n as [|n (cs & Hcs & Hin)].
  - exists []. split; [by rewrite app_nil_r|]. by intros c ?%elem_of_nil.
  - exists (cs ++ frame_calls vp (draw_frames vp n r)). split.
    + by rewrite draw_frames_S, draw_scene_calls, Hcs, app_assoc.
    + intros c [Hc|Hc]%elem_of_app.
      * destruct (Hin c Hc) as (m & Hm & Hcm). exists m. split; [lia|done].
      * exists n. split; [lia|done].
Qed.

(** A hidden object stays hidden along the frames. *)
Lemma draw_frames_hidden vp n r i o :
  objects (scene r) !! i = Some o -> visible o = false ->
  exists o',
    objects (scene (draw_frames vp n r)) !! i = Some o' /\ visible o' = false.
Proof.
  intros Ho Hv. induction n as [|n (on & Hon & Hvn)]; [by exists o|].
  eexists. split; [rewrite draw_frames_S; exact (draw_scene_lookup vp _ i on Hon)|].
  destruct (decide _); [|done].
  destruct (visible (update_object _ i on).1) eqn:Hvis; [|done].
  apply update_object_visible in Hvis. congruence.
Qed.

(** X18.  The renderer never brings an object back.  Once [visible] is
    false, frame after frame the object stays hidden and none of its
    matrices is bound, whatever its transform, counter and box become. *)
Theorem hidden_object_never_drawn vp n r i o :
  objects (scene r) !! i = Some o ->
  visible o = false ->
  (exists o', objects (scene (draw_frames vp n r)) !! i = Some o'
              /\ visible o' = false)
  /\ forall k b, c_matrix_set (MatPtr i k) b ∉ calls_since r (draw_frames vp n r).
Proof.
  intros Ho Hv. split; [by apply (draw_frames_hidden vp n r i o)|].
  intros k b Hin. unfold calls_since in Hin.
  destruct (draw_frames_calls vp n r) as (cs & Hcs & Hfrom).
  rewrite Hcs, drop_app_length in Hin.
  destruct (Hfrom _ Hin) as (m & _ & Hm).
  apply frame_calls_bind in Hm as (o' & Hi & Ho' & Hp & _).
  destruct (draw_frames_hidden vp m r i o Ho Hv) as (om & Hom & Hvm).
  unfold updated_objects in Ho'.
  rewrite (update_objects_lookup (set_frameIdx _ (draw_frames vp m r)) i om) in Ho'
    by done.
  injection Ho' as <-.
  unfold passes_draw_tests in Hp.
  apply andb_prop in Hp as [Hp _]. apply andb_prop in Hp as [Hp _].
  apply update_object_visible in Hp. congruence.
Qed.

(** The frames of one dynamic object: the counter goes down by one per
    frame until it is zero, and a slot no frame so far has run with still
    holds the matrix it held at the start. *)
Lemma draw_frames_state vp n r i o d :
  0 < FB_COUNT -> 0 <= frameIdx r ->
  objects (scene r) !! i = Some o ->
  (i < object_count (scene r))%nat ->
  is_removed o = false -> is_static o = false ->
  dirty (transform o) = N.of_nat d ->
  exists o',
    objects (scene (draw_frames vp n r)) !! i = Some o'
    /\ is_removed o' = false /\ is_static o' = false
    /\ rot (transform o') = rot (transform o)
    /\ scale (transform o') = scale (transform o)
    /\ length (model_mat o') = length (model_mat o)
    /\ dirty (transform o') = N.of_nat (d - n)
    /\ forall s : nat,
         (forall j, (1 <= j <= Nat.min n d)%nat -> s ≠ slot_of_frame (frameIdx r) j) ->
         model_mat o' !! s = model_mat o !! s.
Proof.
  intros HN Hf Ho Hi Hr Hst Hd. induction n as [|n IH].
  - exists o. repeat split; try done. rewrite Hd. f_equal. lia.
  - destruct IH as (on & Hon & Hrn & Hstn & Hq & Hs & Hlen & Hdn & Hkeep).
    pose proof (draw_scene_lookup vp (draw_frames vp n r) i on Hon) as Hnext.
    rewrite draw_frames_count in Hnext.
    destruct (decide (i < object_count (scene r))%nat); [|lia].
    rewrite <- draw_frames_S in Hnext.
    eexists. split; [exact Hnext|].
    destruct (update_object_frame (next_slot (draw_frames vp n r)) i on)
      as (H1 & H2 & _ & _ & _ & H6 & H7 & H8).
    rewrite H1, H2, H6, H7, H8.
    repeat split; try done.
    + rewrite update_object_dirty_pred, Hdn by done. lia.
    + intros s Hs'. destruct (Nat.lt_ge_cases n d) as [Hnd|Hnd].
      * rewrite update_object_other_slot.
        -- apply Hkeep. intros j Hj. apply Hs'. lia.
        -- unfold mat_idx_of. rewrite Hstn, next_slot_frames by done.
           apply (Hs' (S n)). lia.
      * rewrite update_object_clean by (rewrite Hdn; f_equal; lia).
        apply Hkeep. intros j Hj. apply Hs'. lia.
Qed.

(** Under a valid transform the frames also keep location and visibility,
    and every slot a dirty frame ran with holds the matrix of the
    transform. *)
Lemma draw_frames_refresh vp n r i o d :
  0 < FB_COUNT -> 0 <= frameIdx r ->
  objects (scene r) !! i = Some o ->
  (i < object_count (scene r))%nat ->
  is_removed o = false -> is_static o = false ->
  dirty (transform o) = N.of_nat d ->
  transform_is_safe (loc (transform o)) (scale (transform o)) = true ->
  full_slots o ->
  exists o',
    objects (scene (draw_frames vp n r)) !! i = Some o'
    /\ loc (transform o') = loc (transform o)
    /\ visible o' = visible o
    /\ forall j, (1 <= j <= Nat.min n d)%nat ->
         model_mat o' !! slot_of_frame (frameIdx r) j = Some (composed o).
Proof.
  intros HN Hf Ho Hi Hr Hst Hd Hsafe Hfull. induction n as [|n IH].
  - exists o. repeat split; try done. intros j Hj. cbn in Hj. lia.
  - destruct IH as (on & Hon & Hl & Hv & Hmat).
    destruct (draw_frames_state vp n r i o d HN Hf Ho Hi Hr Hst Hd)
      as (on' & Hon' & Hrn & Hstn & Hq & Hs & Hlen & Hdn & _).
    rewrite Hon in Hon'. injection Hon' as <-.
    pose proof (draw_scene_lookup vp (draw_frames vp n r) i on Hon) as Hnext.
    rewrite draw_frames_count in Hnext.
    destruct (decide (i < object_count (scene r))%nat); [|lia].
    rewrite <- draw_frames_S in Hnext.
    eexists. split; [exact Hnext|].
    destruct (Nat.lt_ge_cases n d) as [Hnd|Hnd].
    + assert (dirty (transform on) ≠ 0%N) as Hd' by (rewrite Hdn; lia).
      assert (transform_is_safe (loc (transform on)) (scale (transform on)) = true)
        as Hsafe' by (by rewrite Hl, Hs).
      rewrite update_object_dirty, sanitize_safe, recompute_eq by done.
      cbn [fst transform loc visible model_mat].
      split; [done|]. split; [done|].
      intros j Hj. unfold mat_idx_of. rewrite Hstn, next_slot_frames by done.
      pose proof (Z.mod_pos_bound (frameIdx r + Z.of_nat (S n)) FB_COUNT HN) as Hb.
      destruct (decide (slot_of_frame (frameIdx r) j = slot_of_frame (frameIdx r) (S n)))
        as [->|Hne].
      * unfold slot_of_frame. rewrite composed_mats_lookup.
        -- unfold composed. by rewrite Hl, Hq, Hs.
        -- unfold slot_exists, full_slots in *. rewrite Hlen, Hfull. lia.
      * rewrite composed_mats_other by done.
        apply Hmat. destruct (decide (j = S n)) as [->|]; [done|lia].
    + rewrite update_object_clean by (rewrite Hdn; f_equal; lia).
      cbn [fst]. split; [done|]. split; [done|].
      intros j Hj. apply Hmat. lia.
Qed.

(** Every slot is the slot of one of [FB_COUNT] consecutive frames. *)
Lemma slot_of_frame_onto f0 (s : nat) :
  0 < FB_COUNT -> (s < Z.to_nat FB_COUNT)%nat ->
  exists j, (1 <= j <= Z.to_nat FB_COUNT)%nat /\ slot_of_frame f0 j = s.
Proof.
  intros HN Hs.
  pose proof (Z.mod_pos_bound (Z.of_nat s - f0 - 1) FB_COUNT HN) as Hb.
  exists (S (Z.to_nat ((Z.of_nat s - f0 - 1) mod FB_COUNT))). split; [lia|].
  unfold slot_of_frame.
  replace (f0 + Z.of_nat (S (Z.to_nat ((Z.of_nat s - f0 - 1) mod FB_COUNT))))
    with ((f0 + 1) + (Z.of_nat s - f0 - 1) mod FB_COUNT) by lia.
  rewrite Zplus_mod_idemp_r.
  replace (f0 + 1 + (Z.of_nat s - f0 - 1)) with (Z.of_nat s) by lia.
  rewrite Z.mod_small by lia. lia.
Qed.

(** X8.  Why the counter is set to the number of frame buffers.  A dynamic,
    not removed object with a valid transform, [FB_COUNT] matrix slots and a
    counter of at least [FB_COUNT] has, after [FB_COUNT] frames, the matrix of
    its transform in every slot; location and visibility are untouched and
    the counter is [FB_COUNT] lower. *)
Theorem all_slots_refreshed vp r i o d :
  0 < FB_COUNT -> 0 <= frameIdx r ->
  objects (scene r) !! i = Some o ->
  (i < object_count (scene r))%nat ->
  is_removed o = false -> is_static o = false ->
  dirty (transform o) = N.of_nat d ->
  (Z.to_nat FB_COUNT <= d)%nat ->
  transform_is_safe (loc (transform o)) (scale (transform o)) = true ->
  full_slots o ->
  exists o',
    objects (scene (draw_frames vp (Z.to_nat FB_COUNT) r)) !! i = Some o'
    /\ loc (transform o') = loc (transform o)
    /\ visible o' = visible o
    /\ dirty (transform o') = N.of_nat (d - Z.to_nat FB_COUNT)
    /\ forall s : nat, (s < Z.to_nat FB_COUNT)%nat ->
         model_mat o' !! s = Some (composed o).
Proof.
  intros HN Hf Ho Hi Hr Hst Hd Hge Hsafe Hfull.
  destruct (draw_frames_refresh vp (Z.to_nat FB_COUNT) r i o d
              HN Hf Ho Hi Hr Hst Hd Hsafe Hfull) as (o' & Ho' & Hl & Hv & Hmat).
  destruct (draw_frames_state vp (Z.to_nat FB_COUNT) r i o d HN Hf Ho Hi Hr Hst Hd)
    as (o'' & Ho'' & _ & _ & _ & _ & _ & Hdn & _).
  rewrite Ho' in Ho''. injection Ho'' as <-.
  exists o'. repeat split; try done.
  intros s Hs. destruct (slot_of_frame_onto (frameIdx r) s HN Hs) as (j & Hj & <-).
  apply Hmat. lia.
Qed.

(** Two of [FB_COUNT] consecutive frames never share a slot. *)
Lemma slot_of_frame_inj f0 j j' :
  0 < FB_COUNT ->
  (1 <= j <= Z.to_nat FB_COUNT)%nat -> (1 <= j' <= Z.to_nat FB_COUNT)%nat ->
  slot_of_frame f0 j = slot_of_frame f0 j' -> j = j'.
Proof.
  intros HN Hj Hj' Heq. unfold slot_of_frame in Heq.
  pose proof (Z.mod_pos_bound (f0 + Z.of_nat j) FB_COUNT HN).
  pose proof (Z.mod_pos_bound (f0 + Z.of_nat j') FB_COUNT HN).
  apply Z2Nat.inj in Heq; [|lia..].
  assert (Z.of_nat j - 1 = Z.of_nat j' - 1); [|lia].
  apply (mod_shift_inj FB_COUNT (f0 + 1)); [lia..|].
  by replace (f0 + 1 + (Z.of_nat j - 1)) with (f0 + Z.of_nat j) by lia;
     replace (f0 + 1 + (Z.of_nat j' - 1)) with (f0 + Z.of_nat j') by lia.
Qed.

(** X9.  A counter below the number of frame buffers leaves stale slots.
    For a dynamic, not removed object whose counter [d] is less than
    [FB_COUNT], the slots of the frames [d+1 .. FB_COUNT] are never written:
    however many frames run, they hold the matrix they held at the start. *)
Theorem short_counter_leaves_stale_slots vp n r i o d j :
  0 < FB_COUNT -> 0 <= frameIdx r ->
  objects (scene r) !! i = Some o ->
  (i < object_count (scene r))%nat ->
  is_removed o = false -> is_static o = false ->
  dirty (transform o) = N.of_nat d ->
  (d < j <= Z.to_nat FB_COUNT)%nat ->
  exists o',
    objects (scene (draw_frames vp n r)) !! i = Some o'
    /\ dirty (transform o') = N.of_nat (d - n)
    /\ model_mat o' !! slot_of_frame (frameIdx r) j =
       model_mat o !! slot_of_frame (frameIdx r) j.
Proof.
  intros HN Hf Ho Hi Hr Hst Hd Hj.
  destruct (draw_frames_state vp n r i o d HN Hf Ho Hi Hr Hst Hd)
    as (o' & Ho' & _ & _ & _ & _ & _ & Hdn & Hkeep).
  exists o'. split; [done|]. split; [done|].
  apply Hkeep. intros j' Hj' Heq.
  apply slot_of_frame_inj in Heq; [lia|done|lia..].
Qed.

End FrameSequences.

(** ** Order and counts of the draw loop *)
Section DrawCounts.
Context `{t3d : T3D} `{engine : Engine}.
Implicit Types (o obj : ArmObject) (f k : Z) (i j n m : nat) (r : Renderer).
Implicit Types (frustum : T3DFrustum) (vp : T3DViewport).

(** The draw loop's trace grows at its end. *)
Lemma draw_calls_prefix frustum f (os : list ArmObject) m n :
  (m <= n)%nat ->
  exists rest, draw_calls frustum f os n = draw_calls frustum f os m ++ rest.
Proof.
  intros Hmn. induction n as [|n IH].
  - assert (m = 0%nat) as -> by lia. exists []. by rewrite app_nil_r.
  - destruct (decide (m = S n)) as [->|Hne]; [exists []; by rewrite app_nil_r|].
    destruct IH as (rest & Hrest); [lia|].
    rewrite draw_calls_S, Hrest. eexists. by rewrite <- app_assoc.
Qed.

(** X10.  Objects are drawn in array order.  When the objects [i] and [j],
    [i] before [j] in the array, both pass the tests of the draw loop, the
    bind and run of [i] come before the bind and run of [j] in the frame's
    trace, each bind followed at once by the run of its object's own
    display list. *)
Theorem drawn_in_array_order vp r i j oi oj :
  (i < j)%nat -> (j < object_count (scene r))%nat ->
  objects (scene (renderer_draw_scene vp r)) !! i = Some oi ->
  objects (scene (renderer_draw_scene vp r)) !! j = Some oj ->
  passes_draw_tests (viewFrustum vp) oi = true ->
  passes_draw_tests (viewFrustum vp) oj = true ->
  exists bi bj pre mid post,
    dpl oi = Some bi /\ dpl oj = Some bj
    /\ calls_since r (renderer_draw_scene vp r) =
       pre ++ [c_matrix_set (MatPtr i (mat_idx_of (frameIdx (renderer_draw_scene vp r)) oi)) true;
               c_rspq_block_run bi]
           ++ mid
           ++ [c_matrix_set (MatPtr j (mat_idx_of (frameIdx (renderer_draw_scene vp r)) oj)) true;
               c_rspq_block_run bj]
           ++ post.
Proof.
  intros Hij Hj Hoi Hoj Hpi Hpj.
  rewrite draw_scene_scene in Hoi, Hoj. fold (updated_objects r) in Hoi, Hoj.
  rewrite calls_since_frame, draw_scene_frameIdx.
  destruct (passes_draw_tests_dpl _ _ Hpi) as [bi Hbi].
  destruct (passes_draw_tests_dpl _ _ Hpj) as [bj Hbj].
  exists bi, bj.
  destruct (draw_calls_prefix (viewFrustum vp) (next_slot r) (updated_objects r)
              (S j) (object_count (scene r))) as (rest & Hrest); [lia|].
  destruct (draw_calls_split (viewFrustum vp) (next_slot r) (updated_objects r)
              j i oi Hij Hoi) as (pre & mid & Hsplit).
  rewrite draw_calls_S, Hoj, Hsplit in Hrest.
  rewrite !draw_object_eq, Hpi, Hpj, Hbi, Hbj in Hrest.
  unfold frame_calls; cbv zeta. rewrite Hrest.
  exists (update_calls (next_slot r) (objects (scene r)) (object_count (scene r))
          ++ frame_prologue (scene r)
          ++ light_calls (lights (scene r)) (light_count (scene r))
          ++ [c_matrix_push_pos 1] ++ pre), mid, (rest ++ [c_matrix_pop 1]).
  split; [done|]. split; [done|].
  unfold frame_prologue. rewrite <- !app_assoc. reflexivity.
Qed.

Lemma passing_S frustum (os : list ArmObject) n :
  passing frustum os (S n) =
  (passing frustum os n + if passes_at frustum os n then 1 else 0)%nat.
Proof.
  unfold passing. rewrite seq_S, List.filter_app, length_app. cbn.
  by destruct (passes_at frustum os n).
Qed.

Lemma block_runs_app (cs cs' : list call) :
  block_runs (cs ++ cs') = (block_runs cs + block_runs cs')%nat.
Proof. unfold block_runs. by rewrite List.filter_app, length_app. Qed.

Lemma binds_app i (cs cs' : list call) :
  binds i (cs ++ cs') = (binds i cs + binds i cs')%nat.
Proof. unfold binds. by rewrite List.filter_app, length_app. Qed.

(** The calls of one object in the draw loop, counted. *)
Lemma draw_object_counts frustum f i j o :
  block_runs (draw_object frustum f j o) =
    (if passes_draw_tests frustum o then 1 else 0)%nat
  /\ binds i (draw_object frustum f j o) =
    (if decide (i = j) then if passes_draw_tests frustum o then 1 else 0 else 0)%nat.
Proof.
  rewrite draw_object_eq.
  destruct (passes_draw_tests frustum o) eqn:Hp.
  - destruct (passes_draw_tests_dpl _ _ Hp) as [b ->].
    split; [done|]. unfold binds; cbn.
    destruct (decide (i = j)) as [->|Hne]; [by rewrite Nat.eqb_refl|].
    by destruct (Nat.eqb_spec j i); [congruence|].
  - split; [done|]. by destruct (decide _).
Qed.

Lemma draw_calls_counts frustum f (os : list ArmObject) n i :
  block_runs (draw_calls frustum f os n) = passing frustum os n
  /\ binds i (draw_calls frustum f os n) =
     (if decide (i < n)%nat then if passes_at frustum os i then 1 else 0 else 0)%nat.
Proof.
  induction n as [|n [IHr IHb]].
  - split; [done|]. by destruct (decide _); [lia|].
  - rewrite draw_calls_S, block_runs_app, binds_app, passing_S, IHr, IHb.
    destruct (os !! n) as [o|] eqn:Hn.
    + assert (passes_at frustum os n = passes_draw_tests frustum o) as Hpn
        by (unfold passes_at; by rewrite Hn).
      destruct (draw_object_counts frustum f i n o) as [-> ->].
      rewrite Hpn. split; [done|].
      destruct (decide (i = n)) as [->|Hne].
      * destruct (decide (n < n)%nat); [lia|].
        destruct (decide (n < S n)%nat); [|lia]. by rewrite Hpn.
      * destruct (decide (i < n)%nat), (decide (i < S n)%nat); lia.
    + assert (passes_at frustum os n = false) as Hpn
        by (unfold passes_at; by rewrite Hn).
      rewrite Hpn. split; [cbn; lia|].
      destruct (decide (i < n)%nat), (decide (i < S n)%nat); try (cbn; lia).
      assert (i = n) as -> by lia. rewrite Hpn. cbn. lia.
Qed.

(** Outside the draw loop a frame binds no matrix and runs no block. *)
Lemma frame_calls_counts vp r i :
  block_runs (frame_calls vp r) =
    passing (viewFrustum vp) (updated_objects r) (object_count (scene r))
  /\ binds i (frame_calls vp r) =
     (if decide (i < object_count (scene r))%nat
      then if passes_at (viewFrustum vp) (updated_objects r) i then 1 else 0
      else 0)%nat.
Proof.
  assert (forall (p : call -> bool) (l : list call),
            (forall c, c ∈ l -> p c = false) -> length (List.filter p l) = 0%nat)
    as Hnone.
  { intros p l Hl. induction l as [|c l IH]; [done|]. cbn.
    rewrite (Hl c) by apply list_elem_of_here.
    apply IH. intros c' Hc'. apply Hl. by apply list_elem_of_further. }
  assert (forall c : call,
            c ∈ update_calls (next_slot r) (objects (scene r)) (object_count (scene r)) ->
            is_block_run c = false /\ is_bind_for i c = false) as Hupd.
  { intros c (j & o & _ & _ & Hc)%update_calls_elem.
    rewrite update_object_calls in Hc.
    destruct (is_removed o); [by apply elem_of_nil in Hc|].
    destruct (N.eqb _ _); [by apply elem_of_nil in Hc|].
    by apply list_elem_of_singleton in Hc as ->. }
  assert (forall c : call,
            c ∈ light_calls (lights (scene r)) (light_count (scene r)) ->
            is_block_run c = false /\ is_bind_for i c = false) as Hlight.
  { intros c Hc. unfold light_calls in Hc.
    rewrite list_elem_of_In, in_flat_map in Hc.
    destruct Hc as (j & _ & Hc). destruct (lights (scene r) !! j); [|done].
    by destruct Hc as [<-|[]]. }
  destruct (draw_calls_counts (viewFrustum vp) (next_slot r) (updated_objects r)
              (object_count (scene r)) i) as [Hr Hb].
  unfold frame_calls; cbv zeta.
  rewrite !block_runs_app, !binds_app, Hr, Hb.
  unfold block_runs at 1 3, binds at 1 3.
  rewrite !Hnone by (intros c Hc; first [apply Hupd in Hc | apply Hlight in Hc]; tauto).
  split; cbn; lia.
Qed.

(** The counter of the draw loop. *)
Lemma draw_loop_count frustum n vc r :
  (for_range n (draw_step frustum) (vc, r)).1 =
  vc + Z.of_nat (passing frustum (objects (scene r)) n).
Proof.
  induction n as [|n IH].
  - unfold for_range, passing; cbn. lia.
  - rewrite for_range_S, passing_S.
    pose proof (draw_loop_spec frustum n vc r) as Hst.
    destruct (for_range n (draw_step frustum) (vc, r)) as [vc' r'].
    cbn [fst snd] in *. subst vc' r'. unfold draw_step, passes_at.
    cbn [emit scene frameIdx].
    destruct (objects (scene r) !! n) as [o|]; [|cbn; lia].
    rewrite draw_object_eq.
    destruct (passes_draw_tests frustum o) eqn:Hp; [|cbn; lia].
    destruct (passes_draw_tests_dpl _ _ Hp) as [b ->]. cbn. lia.
Qed.

(** X11.  [visible_count], the number the debug HUD prints next to the object
    count, is the number of counted objects that pass the three tests and
    the number of display lists the frame runs; it is never negative and
    never above [object_count]. *)
Theorem visible_count_is_blocks_run vp r :
  (draw_scene_counted vp r).1 =
    Z.of_nat (passing (viewFrustum vp) (updated_objects r) (object_count (scene r)))
  /\ (draw_scene_counted vp r).1 =
    Z.of_nat (block_runs (calls_since r (renderer_draw_scene vp r)))
  /\ 0 <= (draw_scene_counted vp r).1 <= Z.of_nat (object_count (scene r)).
Proof.
  assert ((draw_scene_counted vp r).1 =
          Z.of_nat (passing (viewFrustum vp) (updated_objects r)
                            (object_count (scene r)))) as Hcount.
  { unfold draw_scene_counted; cbv zeta. rewrite light_loop_spec.
    match goal with
    | |- context [for_range ?n (draw_step ?fr) (?vc, ?r0)] =>
        pose proof (draw_loop_count fr n vc r0) as H;
        destruct (for_range n (draw_step fr) (vc, r0)) as [vc' r']
    end.
    cbn [fst] in *. rewrite H. cbn [emit scene].
    by rewrite (update_objects_scene (set_frameIdx _ r)). }
  split; [done|]. split.
  - rewrite calls_since_frame, (proj1 (frame_calls_counts vp r 0)). done.
  - rewrite Hcount. split; [lia|]. apply inj_le. unfold passing.
    etransitivity; [apply List.filter_length_le|]. by rewrite length_seq.
Qed.

(** X12.  No object is drawn twice in a frame: the trace of a frame binds a
    matrix of a counted object once when the object passes the three tests
    and not at all when it does not, and never binds one of an object past
    [object_count]. *)
Theorem bound_once_per_frame vp r i :
  binds i (calls_since r (renderer_draw_scene vp r)) =
  (if decide (i < object_count (scene r))%nat
   then if passes_at (viewFrustum vp) (objects (scene (renderer_draw_scene vp r))) i
        then 1 else 0
   else 0)%nat.
Proof.
  rewrite calls_since_frame, draw_scene_scene.
  apply frame_calls_counts.
Qed.

End DrawCounts.

(** ** Update before draw *)
Section FrameOrder.
Context `{t3d : T3D} `{engine : Engine}.
Implicit Types (o obj : ArmObject) (f k : Z) (i j n m : nat) (r : Renderer).
Implicit Types (vp : T3DViewport).

(** A call that is not of the kind a prefix is made of sits in the rest. *)
Lemma split_after_prefix (P : call -> Prop) (us rest pre post : list call) (c : call) :
  us ++ rest = pre ++ c :: post ->
  (forall x, x ∈ us -> P x) -> ~ P c ->
  exists pre', rest = pre' ++ c :: post.
Proof.
  revert pre. induction us as [|u us IH]; intros pre Heq Hus Hc.
  - by exists pre.
  - destruct pre as [|x pre].
    + injection Heq as -> _. exfalso. apply Hc, Hus, list_elem_of_here.
    + injection Heq as _ Heq. apply (IH pre Heq); [|done].
      intros y Hy. apply Hus. by apply list_elem_of_further.
Qed.

(** X14.  Matrices are composed before any is bound.  Once a frame has bound
    a matrix, it composes none: no call of [t3d_mat4fp_from_srt] follows a
    call of [t3d_matrix_set] in the trace of a frame. *)
Theorem no_composition_after_bind vp r pre post (m : mat_ptr) (b : bool) :
  calls_since r (renderer_draw_scene vp r) = pre ++ c_matrix_set m b :: post ->
  forall out s q l, c_mat4fp_from_srt out s q l ∉ post.
Proof.
  rewrite calls_since_frame. unfold frame_calls; cbv zeta. intros Heq out s q l Hin.
  apply (split_after_prefix
           (fun c => exists out s q l, c = c_mat4fp_from_srt out s q l)) in Heq
    as (pre' & Heq).
  - assert (c_mat4fp_from_srt out s q l
              ∈ frame_prologue (scene r)
                ++ light_calls (lights (scene r)) (light_count (scene r))
                ++ [c_matrix_push_pos 1]
                ++ draw_calls (viewFrustum vp) (next_slot r) (updated_objects r)
                              (object_count (scene r))
                ++ [c_matrix_pop 1]) as H.
    { unfold frame_prologue. rewrite Heq. apply elem_of_app. right.
      by apply list_elem_of_further. }
    rewrite !elem_of_app in H. destruct H as [H|[H|[H|[H|H]]]].
    + unfold frame_prologue in H.
      repeat (apply elem_of_cons in H as [H|H]; [done|]). by apply elem_of_nil in H.
    + unfold light_calls in H. rewrite list_elem_of_In, in_flat_map in H.
      destruct H as (j & _ & H). destruct (lights (scene r) !! j); [|done].
      by destruct H as [H|[]].
    + by apply list_elem_of_singleton in H.
    + apply draw_calls_elem in H as (j & o & _ & _ & H).
      rewrite draw_object_eq in H.
      destruct (passes_draw_tests (viewFrustum vp) o); [|by apply elem_of_nil in H].
      destruct (dpl o); [|by apply elem_of_nil in H].
      apply elem_of_cons in H as [H|H]; [done|]. by apply list_elem_of_singleton in H.
    + by apply list_elem_of_singleton in H.
  - intros x (j & o & _ & _ & Hx)%update_calls_elem.
    rewrite update_object_calls in Hx.
    destruct (is_removed o); [by apply elem_of_nil in Hx|].
    destruct (N.eqb _ _); [by apply elem_of_nil in Hx|].
    apply list_elem_of_singleton in Hx. eauto.
  - by intros (? & ? & ? & ? & ?).
Qed.

End FrameOrder.

(** ** The further theorems on the sample scenes *)
Module StageRuns.
Import Sample Stage.
#[local] Existing Instance t3d.
#[local] Existing Instance engine.

Lemma removed_object_skipped_run :
  objects (scene (renderer_update_objects (start removed_dirty_cube))) !! 0%nat
    = Some removed_dirty_cube
  /\ recomputations 0 (calls (renderer_update_objects (start removed_dirty_cube)))
     = recomputations 0 (calls (start removed_dirty_cube)).
Proof.
  apply (removed_object_skipped (start removed_dirty_cube) 0 removed_dirty_cube);
    reflexivity.
Defined.

Lemma update_pass_keeps_run :
  exists o',
    objects (scene (renderer_update_objects (start nan_cube))) !! 0%nat = Some o'
    /\ is_removed o' = is_removed nan_cube /\ is_static o' = is_static nan_cube
    /\ dpl o' = dpl nan_cube
    /\ bounds_min o' = bounds_min nan_cube /\ bounds_max o' = bounds_max nan_cube
    /\ rot (transform o') = rot (transform nan_cube)
    /\ scale (transform o') = scale (transform nan_cube)
    /\ length (model_mat o') = length (model_mat nan_cube)
    /\ (dirty (transform o') <= dirty (transform nan_cube))%N
    /\ (visible o' = true -> visible nan_cube = true).
Proof.
  apply (update_pass_keeps (start nan_cube) 0 nan_cube); reflexivity.
Defined.

Lemma update_pass_other_slots_run :
  exists o',
    objects (scene (renderer_update_objects (start cube))) !! 0%nat = Some o'
    /\ model_mat o' !! 2%nat = model_mat cube !! 2%nat.
Proof.
  apply (update_pass_other_slots (start cube) 0 cube 2); [reflexivity|].
  cbn. lia.
Defined.

Lemma valid_transform_recomputed_run :
  exists o',
    objects (scene (renderer_update_objects (start cube))) !! 0%nat = Some o'
    /\ loc (transform o') = loc (transform cube)
    /\ visible o' = visible cube
    /\ (slot_exists (mat_idx_of (frameIdx (start cube)) cube) cube ->
        model_mat o' !! Z.to_nat (mat_idx_of (frameIdx (start cube)) cube)
        = Some (composed cube))
    /\ cached_world_aabb_min o' =
       world_aabb_min (rot (transform cube)) (loc (transform cube))
                      (bounds_min cube) (bounds_max cube)
    /\ cached_world_aabb_max o' =
       world_aabb_max (rot (transform cube)) (loc (transform cube))
                      (bounds_min cube) (bounds_max cube)
    /\ dirty (transform o') = (dirty (transform cube) - 1)%N.
Proof.
  apply (valid_transform_recomputed (start cube) 0 cube);
    first [reflexivity | cbn; lia | vm_compute; reflexivity].
Defined.

Lemma empty_scene_frame_run :
  renderer_update_objects empty_start = empty_start
  /\ scene (renderer_draw_scene viewport empty_start) = scene empty_start
  /\ calls_since empty_start (renderer_draw_scene viewport empty_start) =
     frame_prologue (scene empty_start)
     ++ light_calls (lights (scene empty_start)) (light_count (scene empty_start))
     ++ [c_matrix_push_pos 1; c_matrix_pop 1].
Proof.
  apply (empty_scene_frame viewport empty_start). reflexivity.
Defined.

Lemma draw_decision_run :
  submitted 0 (calls_since (start cube) (renderer_draw_scene viewport (start cube))) <->
  visible cube_after_frame = true
  /\ t3d_frustum_vs_aabb (viewFrustum viewport)
       (cached_world_aabb_min cube_after_frame)
       (cached_world_aabb_max cube_after_frame) = true
  /\ is_Some (dpl cube_after_frame).
Proof.
  apply (draw_decision viewport (start cube) 0 cube_after_frame);
    [cbn; lia | vm_compute; reflexivity].
Defined.

Lemma quiet_scene_frame_run :
  scene (renderer_draw_scene viewport (start clean_cube)) = scene (start clean_cube)
  /\ (forall out s q l,
        c_mat4fp_from_srt out s q l
          ∉ calls_since (start clean_cube)
                        (renderer_draw_scene viewport (start clean_cube))).
Proof.
  apply (quiet_scene_frame viewport (start clean_cube)).
  intros [|i] o Hi Ho; [|cbn in Hi; lia].
  injection Ho as <-. reflexivity.
Defined.

Lemma active_slot_in_bounds_run :
  slot_exists
    (mat_idx_of (frameIdx (draw_frames viewport 1 (renderer_init (scene_of cube))))
                cube_after_frame)
    cube_after_frame.
Proof.
  apply (active_slot_in_bounds viewport 1 (scene_of cube) 0 cube_after_frame).
  - cbn. lia.
  - intros [|[|j]] oj Hj; try discriminate Hj. injection Hj as <-. reflexivity.
  - vm_compute; reflexivity.
Defined.

Lemma rejected_object_not_drawn_run :
  (forall k b,
      c_matrix_set (MatPtr 0 k) b
        ∉ calls_since (start nan_cube) (renderer_draw_scene viewport (start nan_cube)))
  /\ ~ submitted 0 (calls_since (start nan_cube)
                                (renderer_draw_scene viewport (start nan_cube))).
Proof.
  apply (rejected_object_not_drawn viewport (start nan_cube) 0 nan_cube);
    first [reflexivity | cbn; lia].
Defined.

Lemma hidden_object_never_drawn_run :
  (exists o', objects (scene (draw_frames viewport 4 (start hidden_cube))) !! 0%nat
              = Some o'
              /\ visible o' = false)
  /\ forall k b,
       c_matrix_set (MatPtr 0 k) b
         ∉ calls_since (start hidden_cube) (draw_frames viewport 4 (start hidden_cube)).
Proof.
  apply (hidden_object_never_drawn viewport 4 (start hidden_cube) 0 hidden_cube);
    reflexivity.
Defined.

Lemma all_slots_refreshed_run :
  exists o',
    objects (scene (draw_frames viewport (Z.to_nat FB_COUNT) (start cube))) !! 0%nat
      = Some o'
    /\ loc (transform o') = loc (transform cube)
    /\ visible o' = visible cube
    /\ dirty (transform o') = N.of_nat (3 - Z.to_nat FB_COUNT)
    /\ forall s : nat, (s < Z.to_nat FB_COUNT)%nat ->
         model_mat o' !! s = Some (composed cube).
Proof.
  apply (all_slots_refreshed viewport (start cube) 0 cube 3);
    first [reflexivity | cbn; lia | vm_compute; reflexivity].
Defined.

Lemma short_counter_leaves_stale_slots_run :
  exists o',
    objects (scene (draw_frames viewport 6 (start once_dirty_cube))) !! 0%nat = Some o'
    /\ dirty (transform o') = N.of_nat (1 - 6)
    /\ model_mat o' !! slot_of_frame (frameIdx (start once_dirty_cube)) 2 =
       model_mat once_dirty_cube !! slot_of_frame (frameIdx (start once_dirty_cube)) 2.
Proof.
  apply (short_counter_leaves_stale_slots viewport 6 (start once_dirty_cube) 0
           once_dirty_cube 1 2);
    first [reflexivity | cbn; lia].
Defined.

Lemma drawn_in_array_order_run :
  exists bi bj pre mid post,
    dpl cube_after_frame = Some bi /\ dpl static_after_frame = Some bj
    /\ calls_since pair_start (renderer_draw_scene viewport pair_start) =
       pre ++ [c_matrix_set
                 (MatPtr 0 (mat_idx_of (frameIdx (renderer_draw_scene viewport pair_start))
                                       cube_after_frame)) true;
               c_rspq_block_run bi]
           ++ mid
           ++ [c_matrix_set
                 (MatPtr 1 (mat_idx_of (frameIdx (renderer_draw_scene viewport pair_start))
                                       static_after_frame)) true;
               c_rspq_block_run bj]
           ++ post.
Proof.
  apply (drawn_in_array_order viewport pair_start 0 1 cube_after_frame static_after_frame);
    first [cbn; lia | vm_compute; reflexivity].
Defined.

Lemma no_composition_after_bind_run :
  calls_since (start cube) (renderer_draw_scene viewport (start cube)) !! 13%nat
    = Some (c_matrix_set (MatPtr 0 1) true)
  /\ forall out s q l,
       c_mat4fp_from_srt out s q l
         ∉ drop 14 (calls_since (start cube) (renderer_draw_scene viewport (start cube))).
Proof.
  split; [vm_compute; reflexivity|].
  apply (no_composition_after_bind viewport (start cube)
           (take 13 (calls_since (start cube) (renderer_draw_scene viewport (start cube))))
           (drop 14 (calls_since (start cube) (renderer_draw_scene viewport (start cube))))
           (MatPtr 0 1) true).
  vm_compute; reflexivity.
Defined.

End StageRuns.
